(** * Autograd operators of fbgemm_gpu/src/sparse_ops_gpu.cpp

    A shallow embedding of the three custom autograd functions of the file
    ([PackSegments], [LookupFunctionBatchedUnaryEmbeddingOp] and
    [IndexSelectDim0GPUOp]) and of the public wrappers built on them,
    followed by the properties of their forward/backward contract.

    Tensors carry integer entries, so that sums are exact; rounding of
    floating-point accumulation is outside this development. *)

From Stdlib Require Import ZArith Lia.
From stdpp Require Import base option list strings gmap sorting.

(** ** Failures *)

(** Every failure of the operator layer is a C++ exception.  The constructors
    name the check that raised it: [InvalidArgument] is a failed
    [TORCH_CHECK] on the number of gradients, [NotOnCudaGpu] a failed
    [TENSOR_ON_CUDA_GPU], [DeviceMismatch] a failed [TENSORS_ON_SAME_DEVICE],
    [InternalError] a saved scalar or tensor that is absent (or of the wrong
    kind) in the context, and [ExternalError] an exception raised inside a
    kernel or inside the tensor library. *)
Inductive Error : Type :=
  | InvalidArgument
  | NotOnCudaGpu
  | DeviceMismatch
  | InternalError
  | ExternalError.

Inductive Result (A : Type) : Type :=
  | Ok (a : A)
  | Err (e : Error).
Arguments Ok {A} a.
Arguments Err {A} e.

#[global] Instance Result_ret : MRet Result := fun A a => Ok a.
#[global] Instance Result_bind : MBind Result := fun A B f m =>
  match m with
  | Ok a => f a
  | Err e => Err e
  end.

#[global] Instance Result_fmap : FMap Result := fun A B f m =>
  match m with
  | Ok a => Ok (f a)
  | Err e => Err e
  end.

Definition is_Ok {A} (r : Result A) : bool :=
  match r with Ok _ => true | Err _ => false end.

(** ** Tensors *)

Inductive Device : Type :=
  | CPU
  | CUDA (index : nat).

#[global] Instance Device_eq_dec : EqDecision Device.
Proof. solve_decision. Defined.

(** A tensor handle is either the undefined tensor [Tensor()] or a dense
    array: its device, its shape, and its slices along dimension 0, each
    slice flattened.  A one-dimensional tensor of [n] integers has [n]
    slices of one entry. *)
Inductive Tensor : Type :=
  | Undefined
  | Dense (dev : Device) (shape : list Z) (slices : list (list Z)).

Definition variable_list : Type := list Tensor.

Definition defined (t : Tensor) : bool :=
  match t with Undefined => false | Dense _ _ _ => true end.

Definition is_cuda (t : Tensor) : bool :=
  match t with
  | Dense (CUDA _) _ _ => true
  | _ => false
  end.

(** [Tensor::get_device]: the CUDA device index, [-1] off the GPU. *)
Definition get_device (t : Tensor) : Z :=
  match t with
  | Dense (CUDA i) _ _ => Z.of_nat i
  | _ => (-1)%Z
  end.

Definition sizes (t : Tensor) : list Z :=
  match t with
  | Undefined => [0%Z]
  | Dense _ shape _ => shape
  end.

Definition rows (t : Tensor) : list (list Z) :=
  match t with
  | Undefined => []
  | Dense _ _ slices => slices
  end.

(** [t.contiguous().size(0)]: the leading entry of [sizes], which is [0] on
    the undefined tensor; it raises on a tensor without dimensions. *)
Definition size0 (t : Tensor) : Result Z :=
  match sizes t with
  | d :: _ => Ok d
  | [] => Err ExternalError
  end.

(** The integers held by a one-dimensional tensor. *)
Definition keys (slices : list (list Z)) : list Z :=
  (fun r => default 0%Z (head r)) <$> slices.

Definition index_values (t : Tensor) : list Z := keys (rows t).

(** Reading a list at a signed 64-bit position. *)
Definition lookupZ {A} (l : list A) (k : Z) : option A :=
  if (k <? 0)%Z then None else l !! Z.to_nat k.

(** Entry [c] of slice [r]; a position outside the tensor reads as [0]. *)
Definition cell (slices : list (list Z)) (r c : nat) : Z :=
  default 0%Z (slices !! r ≫= fun row => row !! c).

(** Conversion of a 64-bit value to the C type [int] (32 bits, two's
    complement). *)
Definition to_int (z : Z) : Z :=
  ((z + 2 ^ 31) mod 2 ^ 32 - 2 ^ 31)%Z.

Definition is_int (z : Z) : Prop := (- 2 ^ 31 <= z < 2 ^ 31)%Z.

(** ** [Tensor::sort]

    [indices.sort()] returns the values in ascending order together with,
    for every sorted position, the position it came from.  The library does
    not promise an order among equal values, so the operators are
    parametrised by the permutation the sort picks; [is_argsort] is what every
    such choice satisfies. *)
Definition is_argsort (argsort : list Z -> list nat) : Prop :=
  forall l : list Z,
    argsort l ≡ₚ seq 0 (length l) /\
    Sorted Z.le ((fun i => l !!! i) <$> argsort l).

(** A stable instance: merge sort of the (value, position) pairs on the
    value. *)
Definition key_le (p q : Z * nat) : Prop := (p.1 <= q.1)%Z.

#[global] Instance key_le_dec : RelDecision key_le.
Proof. intros p q. unfold key_le. apply _. Defined.

Definition merge_argsort (l : list Z) : list nat :=
  snd <$> merge_sort key_le (zip l (seq 0 (length l))).

Section aten_sort.
Variable argsort : list Z -> list nat.

Definition Tensor_sort (t : Tensor) : Result (Tensor * Tensor) :=
  match t with
  | Undefined => Err ExternalError
  | Dense dev shape slices =>
      let perm := argsort (keys slices) in
      Ok (Dense dev shape ((fun i => slices !!! i) <$> perm),
          Dense dev shape ((fun i => [Z.of_nat i]) <$> perm))
  end.
End aten_sort.

(** ** The autograd context *)

Inductive IValue : Type :=
  | IVNone
  | IVInt (z : Z)
  | IVBool (b : bool)
  | IVIntList (l : list Z).

Record AutogradContext : Type := mkContext {
  saved_data : gmap string IValue;
  saved_variables : list Tensor
}.

Definition empty_context : AutogradContext :=
  {| saved_data := ∅; saved_variables := [] |}.

(** [ctx->saved_data[key] = v] *)
Definition set_saved_data (key : string) (v : IValue)
    (ctx : AutogradContext) : AutogradContext :=
  {| saved_data := <[key := v]> (saved_data ctx);
     saved_variables := saved_variables ctx |}.

(** [ctx->saved_data[key]] read: an absent key yields the default [IValue]. *)
Definition get_saved_data (key : string) (ctx : AutogradContext) : IValue :=
  default IVNone (saved_data ctx !! key).

Definition save_for_backward (ts : list Tensor)
    (ctx : AutogradContext) : AutogradContext :=
  {| saved_data := saved_data ctx; saved_variables := ts |}.

Definition get_saved_variables (ctx : AutogradContext) : list Tensor :=
  saved_variables ctx.

Definition toInt (v : IValue) : Result Z :=
  match v with IVInt z => Ok z | _ => Err InternalError end.

Definition toBool (v : IValue) : Result bool :=
  match v with IVBool b => Ok b | _ => Err InternalError end.

Definition toIntVector (v : IValue) : Result (list Z) :=
  match v with IVIntList l => Ok l | _ => Err InternalError end.

(** Element [i] of a list of tensors the code indexes or iterates; a missing
    element is reported as [InternalError]. *)
Definition at_index (l : list Tensor) (i : nat) : Result Tensor :=
  match l !! i with
  | Some t => Ok t
  | None => Err InternalError
  end.

(** ** Argument checks *)

Definition TORCH_CHECK (cond : bool) : Result unit :=
  if cond then Ok tt else Err InvalidArgument.

(** Modelled from the spec: the macro [TENSOR_ON_CUDA_GPU] of
    fbgemm_gpu/sparse_ops_utils.h, which is not among the sources; it passes
    exactly when the tensor resides on a CUDA device. *)
Definition TENSOR_ON_CUDA_GPU (x : Tensor) : Result unit :=
  if is_cuda x then Ok tt else Err NotOnCudaGpu.

(** Modelled from the spec: the macro [TENSORS_ON_SAME_DEVICE] of
    fbgemm_gpu/sparse_ops_utils.h, which is not among the sources; it fails
    with the device-mismatch error when the two tensors reside on different
    devices. *)
Definition TENSORS_ON_SAME_DEVICE (x y : Tensor) : Result unit :=
  if bool_decide (get_device x = get_device y) then Ok tt
  else Err DeviceMismatch.

(** A kernel either returns a tensor or raises ([None]). *)
Definition call_kernel (r : option Tensor) : Result Tensor :=
  match r with
  | Some t => Ok t
  | None => Err ExternalError
  end.

(** ** PackSegments *)

Section PackSegments.
Variable pack_segments_forward_cuda :
  Tensor -> Tensor -> Z -> option Tensor.
Variable pack_segments_backward_cuda :
  Tensor -> Tensor -> Z -> Z -> option Tensor.

Definition PackSegments_forward (ctx : AutogradContext)
    (t_in lengths : Tensor) (max_length : Z)
    : Result (AutogradContext * variable_list) :=
  total_length ← size0 t_in;
  let ctx := set_saved_data "max_length" (IVInt max_length) ctx in
  let ctx := set_saved_data "total_length" (IVInt total_length) ctx in
  let ctx := save_for_backward [lengths] ctx in
  res ← call_kernel (pack_segments_forward_cuda t_in lengths max_length);
  Ok (ctx, [res]).

Definition PackSegments_backward (ctx : AutogradContext)
    (grad_output : variable_list) : Result variable_list :=
  _ ← TORCH_CHECK ((length grad_output =? 2) || (length grad_output =? 1));
  grad ← at_index grad_output 0;
  max_length ← toInt (get_saved_data "max_length" ctx);
  total_length ← toInt (get_saved_data "total_length" ctx);
  let saved_variables := get_saved_variables ctx in
  lengths ← at_index saved_variables 0;
  let grad_inputs := replicate 5 Undefined in
  g ← call_kernel
        (pack_segments_backward_cuda grad lengths total_length max_length);
  Ok (<[0%nat := g]> grad_inputs).

Definition pack_segments_cuda (t_in lengths : Tensor) (max_length : Z)
    : Result (AutogradContext * Tensor) :=
  '(ctx, res) ← PackSegments_forward empty_context t_in lengths max_length;
  r ← at_index res 0;
  Ok (ctx, r).
End PackSegments.

(** ** LookupFunctionBatchedUnaryEmbeddingOp *)

Section BatchedUnaryEmbedding.
Variable batched_unary_embeddings_forward_cuda :
  Tensor -> Tensor -> Tensor -> Tensor -> option Tensor.
Variable batched_unary_embeddings_backward_cuda :
  Tensor -> Tensor -> Tensor -> Tensor -> Tensor -> option Tensor.

Definition LookupFunctionBatchedUnaryEmbeddingOp_forward
    (ctx : AutogradContext) (weight table_offsets offsets indices : Tensor)
    : Result (AutogradContext * variable_list) :=
  let ctx :=
    save_for_backward [weight; table_offsets; offsets; indices] ctx in
  output ← call_kernel
    (batched_unary_embeddings_forward_cuda
       weight table_offsets offsets indices);
  Ok (ctx, [output]).

Definition LookupFunctionBatchedUnaryEmbeddingOp_backward
    (ctx : AutogradContext) (grad_outputs : variable_list)
    : Result variable_list :=
  let saved := get_saved_variables ctx in
  weight ← at_index saved 0;
  table_offsets ← at_index saved 1;
  offsets ← at_index saved 2;
  indices ← at_index saved 3;
  _ ← TORCH_CHECK (length grad_outputs =? 1);
  g0 ← at_index grad_outputs 0;
  grad_weight ← call_kernel
    (batched_unary_embeddings_backward_cuda
       g0 weight table_offsets offsets indices);
  Ok [grad_weight; Undefined; Undefined; Undefined].

Definition lookup_batched_unary_embedding_function
    (weight table_offsets offsets indices : Tensor)
    : Result (AutogradContext * Tensor) :=
  '(ctx, res) ← LookupFunctionBatchedUnaryEmbeddingOp_forward
                  empty_context weight table_offsets offsets indices;
  r ← at_index res 0;
  Ok (ctx, r).
End BatchedUnaryEmbedding.

(** ** IndexSelectDim0GPUOp *)

Section IndexSelectDim0GPUOp.
Variable argsort : list Z -> list nat.
Variable index_select_cuda :
  Tensor -> Tensor -> Tensor -> bool -> option Tensor.
Variable index_add_with_unique_indices_cuda :
  Tensor -> Tensor -> Tensor -> list Z -> Z -> Z -> option Tensor.

(** The two hints have the C type [int]. *)
Definition IndexSelectDim0GPUOp_forward (ctx : AutogradContext)
    (input indices : Tensor)
    (consecutive_range_start consecutive_range_length : Z)
    (skip_indices_sorting_fwd : bool)
    : Result (AutogradContext * variable_list) :=
  _ ← TENSOR_ON_CUDA_GPU input;
  _ ← TENSOR_ON_CUDA_GPU indices;
  _ ← TENSORS_ON_SAME_DEVICE input indices;
  '(ctx, sorted_indices, orig_indices) ←
    (if skip_indices_sorting_fwd then
       Ok (save_for_backward [indices] ctx, Undefined, Undefined)
     else
       '(sorted_indices, orig_indices) ← Tensor_sort argsort indices;
       Ok (save_for_backward [sorted_indices; orig_indices] ctx,
           sorted_indices, orig_indices));
  let ctx := set_saved_data "input_shape" (IVIntList (sizes input)) ctx in
  let ctx := set_saved_data "consecutive_range_start"
               (IVInt consecutive_range_start) ctx in
  let ctx := set_saved_data "consecutive_range_length"
               (IVInt consecutive_range_length) ctx in
  let ctx := set_saved_data "skip_indices_sorting_fwd"
               (IVBool skip_indices_sorting_fwd) ctx in
  out ← call_kernel
    (index_select_cuda input
       (if skip_indices_sorting_fwd then indices else sorted_indices)
       orig_indices
       (negb skip_indices_sorting_fwd));
  Ok (ctx, [out]).

Definition IndexSelectDim0GPUOp_backward (ctx : AutogradContext)
    (grad_outputs : variable_list) : Result variable_list :=
  _ ← TORCH_CHECK (length grad_outputs =? 1);
  g0 ← at_index grad_outputs 0;
  _ ← TENSOR_ON_CUDA_GPU g0;
  skip_indices_sorting_fwd ←
    toBool (get_saved_data "skip_indices_sorting_fwd" ctx);
  let saved := get_saved_variables ctx in
  '(sorted_indices, orig_indices) ←
    (if skip_indices_sorting_fwd : bool then
       indices ← at_index saved 0;
       Tensor_sort argsort indices
     else
       sorted_indices ← at_index saved 0;
       orig_indices ← at_index saved 1;
       Ok (sorted_indices, orig_indices));
  _ ← TENSOR_ON_CUDA_GPU sorted_indices;
  _ ← TENSOR_ON_CUDA_GPU orig_indices;
  let grad_output := g0 in
  _ ← TENSORS_ON_SAME_DEVICE grad_output sorted_indices;
  input_shape ← toIntVector (get_saved_data "input_shape" ctx);
  consecutive_range_start ←
    to_int <$> toInt (get_saved_data "consecutive_range_start" ctx);
  consecutive_range_length ←
    to_int <$> toInt (get_saved_data "consecutive_range_length" ctx);
  let undef := Undefined in
  grad_input ← call_kernel
    (index_add_with_unique_indices_cuda
       grad_output sorted_indices orig_indices input_shape
       consecutive_range_start consecutive_range_length);
  Ok [grad_input; Undefined; undef; undef; undef].

(** [IndexSelectDim0GPUOp::apply]: runs [forward] on a fresh context, which
    the engine keeps for the backward pass. *)
Definition IndexSelectDim0GPUOp_apply (input indices : Tensor)
    (consecutive_range_start consecutive_range_length : Z)
    (skip_indices_sorting_fwd : bool)
    : Result (AutogradContext * variable_list) :=
  IndexSelectDim0GPUOp_forward empty_context input indices
    consecutive_range_start consecutive_range_length
    skip_indices_sorting_fwd.

(** The public entry point.  [inference_mode] is the value of
    [c10::InferenceMode::is_enabled()] at the call; the context is returned
    next to the output tensor, which carries it in the autograd graph. *)
Definition index_select_dim0_gpu (inference_mode : bool)
    (input indices : Tensor)
    (consecutive_range_start consecutive_range_length : option Z)
    (skip_indices_sorting_fwd : option bool)
    : Result (AutogradContext * Tensor) :=
  let user_skip_indices_sorting_fwd :=
    match skip_indices_sorting_fwd with Some b => b | None => false end in
  '(ctx, res) ← IndexSelectDim0GPUOp_apply input indices
    (to_int (match consecutive_range_start with
             | Some s => s | None => 0%Z end))
    (to_int (match consecutive_range_length with
             | Some l => l | None => 0%Z end))
    (user_skip_indices_sorting_fwd && negb inference_mode);
  r ← at_index res 0;
  Ok (ctx, r).
End IndexSelectDim0GPUOp.

(** ** Kernels behind the operators

    The kernels live in the CUDA sources of the library; the definitions
    below follow the contracts the specification states for them. *)

Definition zero_row (w : nat) : list Z := replicate w 0%Z.

(** Number of entries of one slice along dimension 0 of a tensor of the
    given shape. *)
Definition width (shape : list Z) : nat :=
  Z.to_nat (foldr Z.mul 1%Z (tail shape)).

(** [at::zeros(shape)] as slices along dimension 0. *)
Definition zeros_rows (shape : list Z) : list (list Z) :=
  replicate (Z.to_nat (hd 1%Z shape)) (zero_row (width shape)).

Definition insertZ {A} (i : Z) (x : A) (l : list A) : list A :=
  if (i <? 0)%Z then l else <[Z.to_nat i := x]> l.

Definition alterZ {A} (f : A -> A) (i : Z) (l : list A) : list A :=
  if (i <? 0)%Z then l else alter f (Z.to_nat i) l.

(** Modelled from the spec: the gather kernel [index_select_cuda], whose
    CUDA source is not among the sources.  Contract [(input,
    sorted_or_raw_indices, orig_indices?, indices_sorted) ->
    output[len(indices), ...]]: it gathers the rows of [input] at the given
    indices; when the indices are the sorted ones, the row gathered for
    sorted position [j] is stored at the original position
    [orig_indices[j]]. *)
Definition index_select_cuda (input indices orig_indices : Tensor)
    (indices_sorted : bool) : option Tensor :=
  match input, indices with
  | Dense dev shape slices, Dense _ _ idx =>
      let w := width shape in
      let N := length idx in
      let gather := fun k : Z => default (zero_row w) (lookupZ slices k) in
      let out :=
        if indices_sorted then
          foldl (fun acc p => insertZ (snd p) (gather (fst p)) acc)
            (replicate N (zero_row w))
            (zip (keys idx) (index_values orig_indices))
        else gather <$> keys idx in
      Some (Dense dev (Z.of_nat N :: tail shape) out)
  | _, _ => None
  end.

(** [acc += g], entry by entry. *)
Definition row_add (g acc : list Z) : list Z :=
  imap (fun c a => (a + default 0 (g !! c))%Z) acc.

(** One step of the scatter: [grad_input[k] += grad_output[i]] for the pair
    [(k, i)]. *)
Definition scatter_add (grad : list (list Z)) (acc : list (list Z))
    (p : Z * Z) : list (list Z) :=
  match lookupZ grad (snd p) with
  | Some g => alterZ (row_add g) (fst p) acc
  | None => acc
  end.

(** The general accumulation path. *)
Definition index_add_general (grad : list (list Z)) (input_shape : list Z)
    (sorted orig : list Z) : list (list Z) :=
  foldl (scatter_add grad) (zeros_rows input_shape) (zip sorted orig).

(** The path for indices in the range [[start, start + len)]: the gradient
    rows are summed in a window of [len] rows addressed by [k - start], and
    the window is then placed at rows [start ..] of the zero tensor. *)
Definition index_add_consecutive (grad : list (list Z))
    (input_shape : list Z) (sorted orig : list Z) (start len : Z)
    : list (list Z) :=
  let window :=
    foldl (scatter_add grad)
      (replicate (Z.to_nat len) (zero_row (width input_shape)))
      (zip ((fun k => (k - start)%Z) <$> sorted) orig) in
  imap (fun r row =>
          if bool_decide (start <= Z.of_nat r < start + len)%Z
          then default row (window !! Z.to_nat (Z.of_nat r - start))
          else row)
       (zeros_rows input_shape).

(** Modelled from the spec: the scatter kernel
    [index_add_with_unique_indices_cuda], whose CUDA source is not among the
    sources.  Contract [(grad_output, sorted_indices, orig_indices,
    input_shape, range_start, range_length) -> grad_input]: a zero tensor of
    the shape [input_shape] into which, for each occurrence [i] of index
    [k], row [i] of [grad_output] is added at row [k]; a positive range
    length selects the consecutive-range path. *)
Definition index_add_with_unique_indices_cuda
    (grad_output sorted_indices orig_indices : Tensor)
    (input_shape : list Z)
    (consecutive_range_start consecutive_range_length : Z)
    : option Tensor :=
  match grad_output, sorted_indices, orig_indices with
  | Dense dev _ grad, Dense _ _ sorted, Dense _ _ orig =>
      Some (Dense dev input_shape
        (if (0 <? consecutive_range_length)%Z then
           index_add_consecutive grad input_shape (keys sorted) (keys orig)
             consecutive_range_start consecutive_range_length
         else
           index_add_general grad input_shape (keys sorted) (keys orig)))
  | _, _, _ => None
  end.

(** Modelled from the spec: the kernel [pack_segments_forward_cuda], whose
    CUDA source is not among the sources.  Contract [(input[total_length,
    ...], lengths[num_segments], max_length) -> output[num_segments,
    max_length, ...]]: each segment is cut at [max_length] rows or padded
    with zero rows up to it. *)
Fixpoint pack_rows (w max_length : nat) (slices : list (list Z))
    (lengths : list Z) : list (list Z) :=
  match lengths with
  | [] => []
  | len :: rest =>
      let n := Z.to_nat len in
      concat (take max_length
                (take n slices ++ replicate max_length (zero_row w)))
      :: pack_rows w max_length (drop n slices) rest
  end.

Definition pack_segments_forward_cuda (t_in lengths : Tensor)
    (max_length : Z) : option Tensor :=
  match t_in, lengths with
  | Dense dev shape slices, Dense _ _ lens =>
      Some (Dense dev
        (Z.of_nat (length lens) :: max_length :: tail shape)
        (pack_rows (width shape) (Z.to_nat max_length) slices (keys lens)))
  | _, _ => None
  end.

(** Modelled from the spec: the kernel [pack_segments_backward_cuda], whose
    CUDA source is not among the sources.  Contract [(grad_output, lengths,
    total_length, max_length) -> grad_input[total_length, ...]]: the rows of
    each segment are read back from the padded gradient; rows cut by the
    truncation receive zero. *)
Fixpoint unpack_rows (w max_length : nat) (slices : list (list Z))
    (lengths : list Z) : list (list Z) :=
  match lengths with
  | [] => []
  | len :: rest =>
      let n := Z.to_nat len in
      let slice := default [] (head slices) in
      ((fun r => take w (drop (r * w) slice)) <$> seq 0 (n `min` max_length))
      ++ replicate (n - max_length) (zero_row w)
      ++ unpack_rows w max_length (tail slices) rest
  end.

Definition pack_segments_backward_cuda (grad lengths : Tensor)
    (total_length max_length : Z) : option Tensor :=
  match grad, lengths with
  | Dense dev shape slices, Dense _ _ lens =>
      let w := width (tail shape) in
      Some (Dense dev (total_length :: tail (tail shape))
        (take (Z.to_nat total_length)
           (unpack_rows w (Z.to_nat max_length) slices (keys lens))))
  | _, _ => None
  end.

(** ** Sample tensors *)

Definition gpu0 : Device := CUDA 0.

(** A one-dimensional integer tensor. *)
Definition vector (dev : Device) (l : list Z) : Tensor :=
  Dense dev [Z.of_nat (length l)] ((fun z => [z]) <$> l).

(** A two-dimensional tensor of rows of [w] entries. *)
Definition matrix (dev : Device) (w : nat) (rs : list (list Z)) : Tensor :=
  Dense dev [Z.of_nat (length rs); Z.of_nat w] rs.

(** Sum of the gradient entries in column [c] over all positions [i] of the
    index list with [idx[i] = k]: the right-hand side of the accumulation
    rule [grad_input[k] = sum of grad_output[i]]. *)
Definition Zsum (l : list Z) : Z := foldr Z.add 0%Z l.

Definition positions_of (idx : list Z) (k : Z) : list nat :=
  filter (fun i => idx !! i = Some k) (seq 0 (length idx)).

Definition sum_selected (idx : list Z) (grad : list (list Z)) (k : Z)
    (c : nat) : Z :=
  Zsum ((fun i => cell grad i c) <$> positions_of idx k).

(** Entry [c] of the slice at a signed position. *)
Definition cellZ (slices : list (list Z)) (i : Z) (c : nat) : Z :=
  default 0%Z (lookupZ slices i ≫= fun row => row !! c).

(** [n] slices of [w] entries each. *)
Definition has_shape (n w : nat) (slices : list (list Z)) : Prop :=
  length slices = n /\ Forall (fun row => length row = w) slices.

(** The caller's guarantee that comes with a range hint. *)
Definition in_consecutive_range (idx : list Z) (start len : Z) : Prop :=
  Forall (fun k => (start <= k < start + len)%Z) idx.

(** A second instance of the sort, which keeps equal values in their
    original order: merge sort of the (value, position) pairs on the value,
    then on the position. *)
Definition key_pos_le (p q : Z * nat) : Prop :=
  (p.1 < q.1)%Z \/ (p.1 = q.1 /\ p.2 <= q.2).

#[global] Instance key_pos_le_dec : RelDecision key_pos_le.
Proof. intros p q. unfold key_pos_le. apply _. Defined.




(** ** Registration of the CUDA implementations

    The [TORCH_LIBRARY_IMPL(fbgemm, CUDA, m)] block: each line binds an
    operator name to the C++ function that implements it on CUDA.  The
    functions are named by their symbol. *)

(** Modelled from the spec: the macro [DISPATCH_TO_CUDA] of
    fbgemm_gpu/sparse_ops_utils.h, which is not among the sources; it
    records the implementation under the operator name, a later
    registration of a name replacing an earlier one. *)
Definition DISPATCH_TO_CUDA (name function : string)
    (m : gmap string string) : gmap string string :=
  <[name := function]> m.

Definition cuda_registrations : list (string * string) :=
  [ ("permute_sparse_data", "permute_2D_sparse_data_cuda");
    ("permute_2D_sparse_data", "permute_2D_sparse_data_cuda");
    ("permute_1D_sparse_data", "permute_1D_sparse_data_cuda");
    ("expand_into_jagged_permute", "expand_into_jagged_permute_cuda");
    ("block_bucketize_sparse_features",
     "block_bucketize_sparse_features_cuda");
    ("bucketize_sparse_features", "bucketize_sparse_features_cuda");
    ("asynchronous_exclusive_cumsum", "asynchronous_exclusive_cumsum_gpu");
    ("asynchronous_complete_cumsum", "asynchronous_complete_cumsum_gpu");
    ("asynchronous_inclusive_cumsum", "asynchronous_inclusive_cumsum_gpu");
    ("reorder_batched_ad_lengths", "reorder_batched_ad_lengths_gpu");
    ("reorder_batched_ad_indices", "reorder_batched_ad_indices_gpu");
    ("offsets_range", "offsets_range_cuda");
    ("batched_unary_embeddings", "lookup_batched_unary_embedding_function");
    ("histogram_binning_calibration", "histogram_binning_calibration_cuda");
    ("histogram_binning_calibration_by_feature",
     "histogram_binning_calibration_by_feature_cuda");
    ("generic_histogram_binning_calibration_by_feature",
     "generic_histogram_binning_calibration_by_feature_cuda");
    ("segment_sum_csr", "segment_sum_csr_cuda");
    ("lengths_range", "lengths_range_cuda");
    ("permute_sparse_features", "permute_sparse_features_cuda");
    ("Bfloat16QuantizedToFloat", "_bfloat16_to_float_gpu");
    ("FloatToBfloat16Quantized", "_float_to_bfloat16_gpu");
    ("permute102_baddbmm_permute102", "permute102_baddbmm_permute102_cuda");
    ("permute_sequence_embeddings", "permute_sequence_embeddings_cuda");
    ("pack_segments", "pack_segments_cuda");
    ("index_select_dim0", "index_select_dim0_gpu") ].

(** The table left by running the registrations in order. *)
Definition cuda_dispatch_table : gmap string string :=
  foldl (fun m r => DISPATCH_TO_CUDA (fst r) (snd r) m) ∅ cuda_registrations.

(** * Properties *)

(** ** The error monad *)

Lemma bind_Ok {A B} (f : A -> Result B) (a : A) : Ok a ≫= f = f a.
Proof. reflexivity. Qed.

Lemma bind_Err {A B} (f : A -> Result B) (e : Error) : Err e ≫= f = Err e.
Proof. reflexivity. Qed.

Lemma bind_eq_Ok {A B} (f : A -> Result B) (m : Result A) (b : B) :
  m ≫= f = Ok b <-> exists a, m = Ok a /\ f a = Ok b.
Proof.
  destruct m as [a|e]; simpl; split.
  - intros Hf; exists a; split; [reflexivity | exact Hf].
  - intros (a' & [= <-] & Hf); exact Hf.
  - discriminate.
  - intros (a' & [=] & _).
Qed.

Lemma bind_eq_Err {A B} (f : A -> Result B) (m : Result A) (e : Error) :
  m ≫= f = Err e <-> m = Err e \/ exists a, m = Ok a /\ f a = Err e.
Proof.
  destruct m as [a|e']; simpl; split.
  - intros Hf; right; exists a; split; [reflexivity | exact Hf].
  - intros [[=]|(a' & [= <-] & Hf)]; exact Hf.
  - intros [= ->]; left; reflexivity.
  - intros [[= ->]|(a' & [=] & _)]; reflexivity.
Qed.

Lemma call_kernel_Err r e : call_kernel r = Err e -> e = ExternalError.
Proof. destruct r; simpl; congruence. Qed.

Lemma at_index_Err l i e : at_index l i = Err e -> e = InternalError.
Proof. unfold at_index; destruct (l !! i); congruence. Qed.

Lemma toInt_Err v e : toInt v = Err e -> e = InternalError.
Proof. destruct v; simpl; congruence. Qed.

Lemma toBool_Err v e : toBool v = Err e -> e = InternalError.
Proof. destruct v; simpl; congruence. Qed.

Lemma toIntVector_Err v e : toIntVector v = Err e -> e = InternalError.
Proof. destruct v; simpl; congruence. Qed.

Lemma Tensor_sort_Err argsort t e :
  Tensor_sort argsort t = Err e -> e = ExternalError.
Proof. destruct t; simpl; congruence. Qed.

Lemma TENSOR_ON_CUDA_GPU_Ok x :
  is_cuda x = true -> TENSOR_ON_CUDA_GPU x = Ok tt.
Proof. unfold TENSOR_ON_CUDA_GPU; intros ->; reflexivity. Qed.

Lemma TENSOR_ON_CUDA_GPU_Err x :
  is_cuda x = false -> TENSOR_ON_CUDA_GPU x = Err NotOnCudaGpu.
Proof. unfold TENSOR_ON_CUDA_GPU; intros ->; reflexivity. Qed.

Lemma TENSORS_ON_SAME_DEVICE_Ok x y :
  get_device x = get_device y -> TENSORS_ON_SAME_DEVICE x y = Ok tt.
Proof.
  intros H; unfold TENSORS_ON_SAME_DEVICE.
  rewrite bool_decide_eq_true_2; [reflexivity | exact H].
Qed.

Lemma TENSORS_ON_SAME_DEVICE_Err x y :
  get_device x <> get_device y ->
  TENSORS_ON_SAME_DEVICE x y = Err DeviceMismatch.
Proof.
  intros H; unfold TENSORS_ON_SAME_DEVICE.
  rewrite bool_decide_eq_false_2; [reflexivity | exact H].
Qed.

Lemma to_int_id z : is_int z -> to_int z = z.
Proof.
  unfold is_int, to_int; intros H.
  rewrite Z.mod_small; lia.
Qed.

Lemma to_int_is_int z : is_int (to_int z).
Proof.
  unfold is_int, to_int.
  pose proof (Z.mod_pos_bound (z + 2 ^ 31) (2 ^ 32))%Z as H. lia.
Qed.

(** ** Sorting *)

Lemma Tensor_sort_device argsort t s o :
  Tensor_sort argsort t = Ok (s, o) ->
  is_cuda s = is_cuda t /\ is_cuda o = is_cuda t /\
  get_device s = get_device t /\ get_device o = get_device t /\
  defined t = true.
Proof.
  destruct t as [|dev sh sl]; simpl; [discriminate|].
  intros [= <- <-]. done.
Qed.

Lemma Tensor_sort_defined argsort t :
  defined t = true -> exists s o, Tensor_sort argsort t = Ok (s, o).
Proof. destruct t; simpl; [discriminate | eauto]. Qed.

Lemma zip_seq_lookup (l : list Z) (p : Z * nat) :
  p ∈ zip l (seq 0 (length l)) -> l !! p.2 = Some p.1.
Proof.
  intros Hp. apply list_elem_of_lookup in Hp as [j Hj].
  apply lookup_zip_with_Some in Hj as (x & y & -> & Hx & Hy).
  apply lookup_seq in Hy as [-> _]. exact Hx.
Qed.

Lemma Sorted_key_le_fst (l : list (Z * nat)) :
  Sorted key_le l -> Sorted Z.le (fst <$> l).
Proof.
  induction 1 as [|p l Hs IH Hhd]; simpl; constructor; [exact IH|].
  destruct Hhd; simpl; constructor. assumption.
Qed.

#[local] Instance key_le_total : Total key_le.
Proof. intros p q. unfold key_le. lia. Qed.

Lemma merge_argsort_valid : is_argsort merge_argsort.
Proof.
  intros l. unfold merge_argsort.
  set (ms := merge_sort key_le (zip l (seq 0 (length l)))).
  assert (Hperm : ms ≡ₚ zip l (seq 0 (length l)))
    by apply merge_sort_Permutation.
  split.
  - rewrite Hperm. rewrite snd_zip; [reflexivity | by rewrite length_seq].
  - rewrite <- list_fmap_compose.
    assert (Heq : ((fun i => l !!! i) ∘ snd) <$> ms = fst <$> ms).
    { apply list_fmap_ext. intros j p Hj. simpl.
      assert (Hin : p ∈ zip l (seq 0 (length l))).
      { rewrite <- Hperm. eapply list_elem_of_lookup_2, Hj. }
      apply zip_seq_lookup in Hin.
      by rewrite (list_lookup_total_correct _ _ _ Hin). }
    rewrite Heq. apply Sorted_key_le_fst, Sorted_merge_sort. apply _.
Qed.

(** What the sort hands to the kernels: the keys of the sorted tensor are
    the keys of the original one read through the permutation. *)
Lemma keys_lookup (slices : list (list Z)) (i : nat) :
  i < length slices ->
  default 0%Z (head (slices !!! i)) = keys slices !!! i.
Proof.
  intros Hi. destruct (lookup_lt_is_Some_2 slices i Hi) as [r Hr].
  rewrite (list_lookup_total_correct _ _ _ Hr).
  symmetry. apply list_lookup_total_correct.
  unfold keys. by rewrite list_lookup_fmap, Hr.
Qed.

Lemma length_keys slices : length (keys slices) = length slices.
Proof. unfold keys. by rewrite length_fmap. Qed.

Lemma argsort_bound argsort (l : list Z) (i : nat) :
  is_argsort argsort -> i ∈ argsort l -> i < length l.
Proof.
  intros Hs Hi. destruct (Hs l) as [Hp _]. rewrite Hp in Hi.
  apply elem_of_seq in Hi. lia.
Qed.

Lemma sorted_pairs argsort (slices : list (list Z)) :
  is_argsort argsort ->
  zip (keys ((fun i => slices !!! i) <$> argsort (keys slices)))
      (keys ((fun i => [Z.of_nat i]) <$> argsort (keys slices)))
  = (fun i => (keys slices !!! i, Z.of_nat i)) <$> argsort (keys slices).
Proof.
  intros Hs.
  assert (Hb : Forall (fun i => i < length slices) (argsort (keys slices))).
  { apply Forall_forall. intros i Hi.
    rewrite <- length_keys. by eapply argsort_bound. }
  induction Hb as [|i perm Hi Hb IH]; [reflexivity|].
  unfold keys at 1 2. rewrite !fmap_cons. simpl.
  f_equal.
  - f_equal. by apply keys_lookup.
  - exact IH.
Qed.

(** ** The gather kernel *)

Lemma foldl_insert_lookup {A} (f : nat -> A) (perm : list nat)
    (acc : list A) (p : nat) :
  foldl (fun acc i => <[i := f i]> acc) acc perm !! p
  = if decide (p ∈ perm /\ p < length acc) then Some (f p) else acc !! p.
Proof.
  revert acc. induction perm as [|i perm IH]; intros acc; cbn [foldl].
  - rewrite decide_False; [reflexivity|].
    intros [H _]. by apply elem_of_nil in H.
  - rewrite IH, length_insert.
    destruct (decide (p ∈ perm /\ p < length acc)) as [[Hin Hlt]|Hn].
    + rewrite decide_True; [reflexivity|]. split; [by right | exact Hlt].
    + destruct (decide (p = i)) as [->|Hne].
      * destruct (decide (i < length acc)) as [Hlt|Hge].
        -- rewrite list_lookup_insert_eq by exact Hlt.
           rewrite decide_True; [reflexivity|]. split; [by left | exact Hlt].
        -- rewrite list_insert_ge by lia.
           rewrite decide_False; [reflexivity|]. intros [_ ?]; lia.
      * rewrite list_lookup_insert_ne by congruence.
        rewrite decide_False; [reflexivity|].
        intros [Hin Hlt]. apply Hn. split; [|exact Hlt].
        apply elem_of_cons in Hin as [?|?]; [congruence | assumption].
Qed.

Lemma foldl_pointwise {A B} (f g : A -> B -> A) (a : A) (l : list B) :
  (forall a b, f a b = g a b) -> foldl f a l = foldl g a l.
Proof.
  intros Hfg. revert a. induction l as [|b l IH]; intros a; simpl.
  - reflexivity.
  - by rewrite Hfg, IH.
Qed.

Lemma insertZ_of_nat {A} (i : nat) (x : A) (l : list A) :
  insertZ (Z.of_nat i) x l = <[i := x]> l.
Proof.
  unfold insertZ. destruct (Z.ltb_spec (Z.of_nat i) 0); [lia|].
  by rewrite Nat2Z.id.
Qed.

Lemma gather_sorted {A} (h : Z -> A) (d : A) (idx : list Z)
    (perm : list nat) :
  perm ≡ₚ seq 0 (length idx) ->
  foldl (fun acc p => insertZ (snd p) (h (fst p)) acc)
    (replicate (length idx) d)
    ((fun i => (idx !!! i, Z.of_nat i)) <$> perm)
  = h <$> idx.
Proof.
  intros Hperm.
  rewrite (foldl_fmap _ _ perm).
  rewrite (foldl_pointwise _ (fun acc i => <[i := h (idx !!! i)]> acc));
    [|intros acc i; simpl; apply insertZ_of_nat].
  apply list_eq. intros p.
  rewrite (foldl_insert_lookup (fun i => h (idx !!! i))), length_replicate.
  rewrite list_lookup_fmap.
  destruct (idx !! p) as [k|] eqn:Hk; simpl.
  - rewrite decide_True.
    + by rewrite (list_lookup_total_correct _ _ _ Hk).
    + apply lookup_lt_Some in Hk. split; [|exact Hk].
      rewrite Hperm. apply elem_of_seq. lia.
  - apply lookup_ge_None in Hk.
    rewrite decide_False by (intros [_ ?]; lia).
    apply lookup_replicate_None. lia.
Qed.

(** The two modes of the gather kernel agree on the output of a sort. *)
Lemma index_select_cuda_sorted argsort input indices sorted orig :
  is_argsort argsort ->
  Tensor_sort argsort indices = Ok (sorted, orig) ->
  index_select_cuda input sorted orig true
  = index_select_cuda input indices Undefined false.
Proof.
  intros Hs Hsort.
  destruct indices as [|idev ishape idx]; simpl in Hsort; [discriminate|].
  injection Hsort as <- <-.
  destruct input as [|dev shape slices]; [reflexivity|].
  unfold index_select_cuda, index_values, rows.
  assert (Hlen : length ((fun i => idx !!! i) <$> argsort (keys idx))
                 = length (keys idx)).
  { rewrite length_fmap. destruct (Hs (keys idx)) as [Hp _].
    by rewrite Hp, length_seq. }
  rewrite sorted_pairs by exact Hs.
  rewrite Hlen, length_keys, <- (length_keys idx).
  rewrite (gather_sorted
             (fun k => default (zero_row (width shape)) (lookupZ slices k))
             _ (keys idx)); [reflexivity|].
  by destruct (Hs (keys idx)).
Qed.

Lemma index_select_cuda_row input indices out (i : nat) (k : Z) :
  index_select_cuda input indices Undefined false = Some out ->
  index_values indices !! i = Some k ->
  (0 <= k < Z.of_nat (length (rows input)))%Z ->
  rows out !! i = rows input !! Z.to_nat k.
Proof.
  destruct input as [|dev shape slices], indices as [|idev ishape idx];
    simpl; try discriminate.
  intros [= <-] Hk Hrange. simpl.
  unfold index_values in Hk; simpl in Hk.
  rewrite list_lookup_fmap, Hk. simpl.
  unfold lookupZ. destruct (Z.ltb_spec k 0); [lia|].
  destruct (lookup_lt_is_Some_2 slices (Z.to_nat k)) as [r Hr]; [lia|].
  by rewrite Hr.
Qed.

(** ** The scatter kernel *)

Lemma Zsum_cons (x : Z) (l : list Z) : Zsum (x :: l) = (x + Zsum l)%Z.
Proof. reflexivity. Qed.

Lemma Zsum_Permutation (l k : list Z) : l ≡ₚ k -> Zsum l = Zsum k.
Proof.
  induction 1; rewrite ?Zsum_cons; lia.
Qed.

Lemma Zsum_fmap_filter {A} (P : A -> Prop) `{!forall x, Decision (P x)}
    (f : A -> Z) (l : list A) :
  Zsum ((fun x => if decide (P x) then f x else 0%Z) <$> l)
  = Zsum (f <$> filter P l).
Proof.
  induction l as [|x l IH]; [reflexivity|].
  rewrite filter_cons, fmap_cons, Zsum_cons, IH.
  destruct (decide (P x)); rewrite ?fmap_cons, ?Zsum_cons; lia.
Qed.

Lemma Zsum_zero {A} (f : A -> Z) (l : list A) :
  (forall x, x ∈ l -> f x = 0%Z) -> Zsum (f <$> l) = 0%Z.
Proof.
  induction l as [|x l IH]; intros H; [reflexivity|].
  rewrite fmap_cons, Zsum_cons.
  rewrite H by left. rewrite IH; [reflexivity|].
  intros y Hy. apply H. by right.
Qed.

Lemma cell_lookup slices r c row :
  slices !! r = Some row -> cell slices r c = default 0%Z (row !! c).
Proof. unfold cell. by intros ->. Qed.

Lemma cellZ_of_nat slices (i c : nat) :
  cellZ slices (Z.of_nat i) c = cell slices i c.
Proof.
  unfold cellZ, cell, lookupZ.
  destruct (Z.ltb_spec (Z.of_nat i) 0); [lia|]. by rewrite Nat2Z.id.
Qed.

Lemma row_add_lookup g row c :
  c < length row ->
  default 0%Z (row_add g row !! c)
  = (default 0 (row !! c) + default 0 (g !! c))%Z.
Proof.
  intros Hc. unfold row_add. rewrite list_lookup_imap.
  destruct (lookup_lt_is_Some_2 row c Hc) as [a ->]. reflexivity.
Qed.

Lemma length_row_add g row : length (row_add g row) = length row.
Proof. unfold row_add. by rewrite length_imap. Qed.

(** One scatter step adds the gradient entry to the addressed row and
    leaves the other rows alone. *)
Lemma scatter_add_cell grad acc p (r c : nat) row :
  acc !! r = Some row -> c < length row ->
  (exists row', scatter_add grad acc p !! r = Some row' /\
                length row' = length row) /\
  cell (scatter_add grad acc p) r c
  = (cell acc r c
     + if decide (p.1 = Z.of_nat r) then cellZ grad p.2 c else 0)%Z.
Proof.
  intros Hr Hc. destruct p as [k i]. unfold scatter_add, cellZ. simpl.
  destruct (lookupZ grad i) as [g|] eqn:Hg; simpl.
  - unfold alterZ. destruct (Z.ltb_spec k 0) as [Hneg|Hpos].
    + rewrite decide_False by lia. split; [eauto|lia].
    + destruct (decide (k = Z.of_nat r)) as [->|Hne].
      * rewrite Nat2Z.id. split.
        -- exists (row_add g row). split; [|apply length_row_add].
           by rewrite list_lookup_alter_eq, Hr.
        -- rewrite (cell_lookup _ _ _ (row_add g row))
             by (by rewrite list_lookup_alter_eq, Hr).
           rewrite (cell_lookup _ _ _ row) by exact Hr.
           by apply row_add_lookup.
      * assert (Z.to_nat k <> r) by lia. split.
        -- exists row. split; [|reflexivity].
           by rewrite list_lookup_alter_ne.
        -- unfold cell. rewrite list_lookup_alter_ne by assumption. lia.
  - split; [eauto|]. destruct (decide (k = Z.of_nat r)); lia.
Qed.

Lemma scatter_fold_cell grad ps acc (r c : nat) row :
  acc !! r = Some row -> c < length row ->
  cell (foldl (scatter_add grad) acc ps) r c
  = (cell acc r c
     + Zsum ((fun p => if decide (p.1 = Z.of_nat r)
                       then cellZ grad p.2 c else 0%Z) <$> ps))%Z.
Proof.
  revert acc row. induction ps as [|p ps IH]; intros acc row Hr Hc.
  - cbn. lia.
  - destruct (scatter_add_cell grad acc p r c row Hr Hc)
      as [(row' & Hr' & Hlen) Hcell].
    cbn [foldl]. rewrite (IH _ row' Hr') by lia.
    rewrite Hcell, fmap_cons, Zsum_cons. lia.
Qed.

Lemma scatter_add_shape grad acc p n w :
  has_shape n w acc -> has_shape n w (scatter_add grad acc p).
Proof.
  intros [Hn Hw]. unfold scatter_add.
  destruct (lookupZ grad p.2) as [g|]; [|done].
  unfold alterZ. destruct (p.1 <? 0)%Z; [done|].
  split; [by rewrite length_alter|].
  apply Forall_alter; [exact Hw|].
  intros row _ <-. apply length_row_add.
Qed.

Lemma scatter_fold_shape grad ps acc n w :
  has_shape n w acc -> has_shape n w (foldl (scatter_add grad) acc ps).
Proof.
  revert acc. induction ps as [|p ps IH]; intros acc H; [exact H|].
  cbn [foldl]. by apply IH, scatter_add_shape.
Qed.

Lemma replicate_shape n w : has_shape n w (replicate n (zero_row w)).
Proof.
  split; [apply length_replicate|].
  apply Forall_replicate. apply length_replicate.
Qed.

Lemma cell_replicate_zero n w r c : cell (replicate n (zero_row w)) r c = 0%Z.
Proof.
  unfold cell.
  destruct (replicate n (zero_row w) !! r) as [row|] eqn:Hr; [|reflexivity].
  apply lookup_replicate in Hr as [-> _]. simpl.
  unfold zero_row.
  destruct (replicate w 0%Z !! c) as [z|] eqn:Hz; [|reflexivity].
  by apply lookup_replicate in Hz as [-> _].
Qed.


Lemma zip_fmap_fst {A B C} (f : A -> C) (a : list A) (b : list B) :
  zip (f <$> a) b = (fun p => (f p.1, p.2)) <$> zip a b.
Proof.
  revert b. induction a as [|x a IH]; intros [|y b]; simpl; [done..|].
  by rewrite <- IH.
Qed.

(** The sum the scatter computes along the sorted order is the sum over the
    positions of the original index list. *)
Lemma sum_along_permutation (grad : list (list Z)) (idxs : list Z)
    (perm : list nat) (k : Z) (c : nat) :
  perm ≡ₚ seq 0 (length idxs) ->
  Zsum ((fun i => if decide (idxs !!! i = k)
                  then cell grad i c else 0%Z) <$> perm)
  = sum_selected idxs grad k c.
Proof.
  intros Hperm. unfold sum_selected, positions_of.
  rewrite <- (Zsum_fmap_filter (fun i => idxs !! i = Some k)).
  rewrite (Zsum_Permutation _ _ (fmap_Permutation _ _ _ Hperm)).
  f_equal. apply list_fmap_ext. intros j i Hj.
  apply lookup_seq in Hj as [-> Hlt]. simpl.
  destruct (lookup_lt_is_Some_2 idxs j Hlt) as [x Hx].
  rewrite (list_lookup_total_correct _ _ _ Hx), Hx.
  destruct (decide (x = k)) as [->|Hne].
  - by rewrite decide_True.
  - rewrite decide_False; [reflexivity | congruence].
Qed.

Lemma zeros_rows_shape shape :
  has_shape (Z.to_nat (hd 1%Z shape)) (width shape) (zeros_rows shape).
Proof. apply replicate_shape. Qed.

Lemma zeros_rows_lookup shape r :
  r < Z.to_nat (hd 1%Z shape) ->
  zeros_rows shape !! r = Some (zero_row (width shape)).
Proof. intros Hr. unfold zeros_rows. by apply lookup_replicate_2. Qed.

Lemma index_add_general_shape grad shape sorted orig :
  has_shape (Z.to_nat (hd 1%Z shape)) (width shape)
    (index_add_general grad shape sorted orig).
Proof. apply scatter_fold_shape, zeros_rows_shape. Qed.

Lemma index_add_consecutive_shape grad shape sorted orig start len :
  has_shape (Z.to_nat (hd 1%Z shape)) (width shape)
    (index_add_consecutive grad shape sorted orig start len).
Proof.
  unfold index_add_consecutive.
  set (window := foldl _ _ _).
  assert (Hw : has_shape (Z.to_nat len) (width shape) window)
    by apply scatter_fold_shape, replicate_shape.
  destruct (zeros_rows_shape shape) as [Hn Hz].
  split; [by rewrite length_imap|].
  apply Forall_lookup. intros r row Hr.
  rewrite list_lookup_imap in Hr.
  destruct (zeros_rows shape !! r) as [z|] eqn:Hzr; [|discriminate].
  simpl in Hr. injection Hr as <-.
  assert (length z = width shape)
    by (eapply (proj1 (Forall_lookup _ _) Hz); eauto).
  case_bool_decide; [|assumption].
  destruct (window !! Z.to_nat (Z.of_nat r - start)) as [wr|] eqn:Hwr;
    simpl; [|assumption].
  destruct Hw as [_ Hw]. eapply (proj1 (Forall_lookup _ _) Hw); eauto.
Qed.

Section scatter_of_sorted.
Variable argsort : list Z -> list nat.
Hypothesis argsort_valid : is_argsort argsort.
Variables (grad idx : list (list Z)) (shape : list Z).

Lemma index_add_general_cell (r c : nat) :
  r < Z.to_nat (hd 1%Z shape) -> c < width shape ->
  cell (index_add_general grad shape
          (keys ((fun i => idx !!! i) <$> argsort (keys idx)))
          (keys ((fun i => [Z.of_nat i]) <$> argsort (keys idx)))) r c
  = sum_selected (keys idx) grad (Z.of_nat r) c.
Proof.
  intros Hr Hc. unfold index_add_general.
  rewrite sorted_pairs by exact argsort_valid.
  rewrite (scatter_fold_cell _ _ _ r c (zero_row (width shape)));
    [|by apply zeros_rows_lookup|by unfold zero_row; rewrite length_replicate].
  unfold zeros_rows. rewrite cell_replicate_zero, Z.add_0_l.
  rewrite <- list_fmap_compose.
  rewrite <- (sum_along_permutation grad (keys idx) (argsort (keys idx)))
    by apply argsort_valid.
  f_equal. apply list_fmap_ext. intros j i _. simpl.
  by rewrite cellZ_of_nat.
Qed.

Lemma index_add_consecutive_cell (start len : Z) (r c : nat) :
  in_consecutive_range (keys idx) start len ->
  r < Z.to_nat (hd 1%Z shape) -> c < width shape ->
  cell (index_add_consecutive grad shape
          (keys ((fun i => idx !!! i) <$> argsort (keys idx)))
          (keys ((fun i => [Z.of_nat i]) <$> argsort (keys idx)))
          start len) r c
  = sum_selected (keys idx) grad (Z.of_nat r) c.
Proof.
  intros Hrange Hr Hc.
  rewrite <- (sum_along_permutation grad (keys idx) (argsort (keys idx)))
    by apply argsort_valid.
  unfold index_add_consecutive.
  rewrite zip_fmap_fst.
  rewrite sorted_pairs by exact argsort_valid.
  rewrite <- list_fmap_compose.
  set (window := foldl _ _ _).
  rewrite (cell_lookup _ _ _
    (if bool_decide (start <= Z.of_nat r < start + len)%Z
     then default (zero_row (width shape))
            (window !! Z.to_nat (Z.of_nat r - start))
     else zero_row (width shape)));
    [|by rewrite list_lookup_imap, zeros_rows_lookup].
  case_bool_decide as Hin.
  - assert (Hw : has_shape (Z.to_nat len) (width shape) window)
      by apply scatter_fold_shape, replicate_shape.
    destruct (lookup_lt_is_Some_2 window (Z.to_nat (Z.of_nat r - start)))
      as [wr Hwr]; [destruct Hw as [-> _]; lia|].
    rewrite Hwr. simpl.
    rewrite <- (cell_lookup window _ _ _ Hwr). unfold window.
    rewrite (scatter_fold_cell _ _ _ _ c (zero_row (width shape)));
      [|apply lookup_replicate_2; lia
       |by unfold zero_row; rewrite length_replicate].
    rewrite cell_replicate_zero, Z.add_0_l.
    rewrite <- list_fmap_compose.
    f_equal. apply list_fmap_ext. intros j i _. simpl.
    rewrite cellZ_of_nat.
    destruct (decide (keys idx !!! i = Z.of_nat r)) as [Heq|Hne].
    + rewrite decide_True by lia. reflexivity.
    + rewrite decide_False by lia. reflexivity.
  - rewrite Zsum_zero.
    + unfold zero_row.
      destruct (replicate (width shape) 0%Z !! c) as [z|] eqn:Hz;
        [|reflexivity].
      by apply lookup_replicate in Hz as [-> _].
    + intros i Hi. rewrite decide_False; [reflexivity|].
      intros Heq. apply Hin.
      apply (proj1 (Forall_forall _ _) Hrange). rewrite <- Heq.
      apply list_elem_of_lookup_total_2.
      eapply argsort_bound; eauto.
Qed.
End scatter_of_sorted.

(** ** The autograd context *)

Lemma get_set_saved_data_eq key v ctx :
  get_saved_data key (set_saved_data key v ctx) = v.
Proof.
  unfold get_saved_data, set_saved_data. simpl.
  by rewrite lookup_insert_eq.
Qed.

Lemma get_set_saved_data_ne key key' v ctx :
  key <> key' ->
  get_saved_data key (set_saved_data key' v ctx) = get_saved_data key ctx.
Proof.
  intros Hne. unfold get_saved_data, set_saved_data. simpl.
  by rewrite lookup_insert_ne.
Qed.

Lemma saved_variables_set_saved_data key v ctx :
  saved_variables (set_saved_data key v ctx) = saved_variables ctx.
Proof. reflexivity. Qed.

Ltac saved_data_simpl :=
  repeat first
    [ rewrite get_set_saved_data_eq
    | rewrite get_set_saved_data_ne by (intros [=])
    | rewrite saved_variables_set_saved_data ].

(** ** IndexSelectDim0GPUOp: what forward leaves behind *)

Section IndexSelect_facts.
Variable argsort : list Z -> list nat.
Variable select_kernel : Tensor -> Tensor -> Tensor -> bool -> option Tensor.
Variable add_kernel :
  Tensor -> Tensor -> Tensor -> list Z -> Z -> Z -> option Tensor.

Lemma IndexSelect_forward_inv ctx0 input indices start len skip ctx out :
  IndexSelectDim0GPUOp_forward argsort select_kernel ctx0 input indices
    start len skip = Ok (ctx, out) ->
  is_cuda input = true /\ is_cuda indices = true /\
  get_device input = get_device indices /\
  exists sorted orig,
    Tensor_sort argsort indices = Ok (sorted, orig) /\
    saved_variables ctx = (if skip then [indices] else [sorted; orig]) /\
    get_saved_data "input_shape" ctx = IVIntList (sizes input) /\
    get_saved_data "consecutive_range_start" ctx = IVInt start /\
    get_saved_data "consecutive_range_length" ctx = IVInt len /\
    get_saved_data "skip_indices_sorting_fwd" ctx = IVBool skip /\
    exists o, out = [o] /\
      select_kernel input (if skip then indices else sorted)
        (if skip then Undefined else orig) (negb skip) = Some o.
Proof.
  unfold IndexSelectDim0GPUOp_forward, TENSOR_ON_CUDA_GPU,
    TENSORS_ON_SAME_DEVICE.
  destruct (is_cuda input) eqn:Hin; [|discriminate].
  destruct (is_cuda indices) eqn:Hidx; [|discriminate].
  case_bool_decide as Hdev; [|discriminate].
  destruct (Tensor_sort_defined argsort indices) as (sorted & orig & Hsort).
  { by destruct indices as [|[]]. }
  cbn [mbind Result_bind]. rewrite Hsort.
  intros H. do 3 (split; [done|]). exists sorted, orig.
  split; [done|].
  destruct skip; cbn [mbind Result_bind negb] in H;
    match type of H with
    | context [call_kernel ?r] => destruct r as [o|] eqn:Hk
    end; cbn in H; try discriminate;
    injection H as <- <-; saved_data_simpl;
    repeat (split; [reflexivity|]); exists o; split; done.
Qed.

(** On a context left by [forward], [backward] amounts to its own checks
    followed by one call of the scatter kernel on the sorted indices. *)
Lemma IndexSelect_backward_after_forward
    ctx0 input indices start len skip ctx out grad_outputs :
  IndexSelectDim0GPUOp_forward argsort select_kernel ctx0 input indices
    start len skip = Ok (ctx, out) ->
  IndexSelectDim0GPUOp_backward argsort add_kernel ctx grad_outputs
  = (_ ← TORCH_CHECK (length grad_outputs =? 1);
     g0 ← at_index grad_outputs 0;
     _ ← TENSOR_ON_CUDA_GPU g0;
     '(sorted, orig) ← Tensor_sort argsort indices;
     _ ← TENSORS_ON_SAME_DEVICE g0 indices;
     grad_input ← call_kernel
       (add_kernel g0 sorted orig (sizes input)
          (to_int start) (to_int len));
     Ok [grad_input; Undefined; Undefined; Undefined; Undefined]).
Proof.
  intros Hfwd.
  apply IndexSelect_forward_inv in Hfwd
    as (Hin & Hidx & Hdev & sorted & orig & Hsort & Hsaved & Hshape
        & Hstart & Hlen & Hskip & _).
  unfold IndexSelectDim0GPUOp_backward, get_saved_variables.
  rewrite Hskip, Hsaved, Hshape, Hstart, Hlen, Hsort.
  destruct (Tensor_sort_device _ _ _ _ Hsort) as (Hs & Ho & Hds & _ & _).
  destruct (TORCH_CHECK _); cbn [mbind Result_bind]; [|reflexivity].
  destruct (at_index grad_outputs 0) as [g0|];
    cbn [mbind Result_bind]; [|reflexivity].
  destruct (TENSOR_ON_CUDA_GPU g0); cbn [mbind Result_bind]; [|reflexivity].
  cbn [mbind Result_bind toBool fmap Result_fmap toIntVector toInt].
  assert (Hchk : forall (k : Result variable_list),
    (_ ← TENSOR_ON_CUDA_GPU sorted; _ ← TENSOR_ON_CUDA_GPU orig;
     _ ← TENSORS_ON_SAME_DEVICE g0 sorted; k)
    = (_ ← TENSORS_ON_SAME_DEVICE g0 indices; k)).
  { intros k. rewrite !TENSOR_ON_CUDA_GPU_Ok by congruence.
    unfold TENSORS_ON_SAME_DEVICE. by rewrite Hds. }
  destruct skip; cbn [at_index lookup list_lookup mbind Result_bind];
    try rewrite Hsort; cbn [mbind Result_bind]; apply Hchk.
Qed.
End IndexSelect_facts.

(** ** Which failure a call can end in *)

Lemma TORCH_CHECK_Err cond e : TORCH_CHECK cond = Err e -> e = InvalidArgument.
Proof. destruct cond; simpl; congruence. Qed.

Lemma TENSOR_ON_CUDA_GPU_Err_inv x e :
  TENSOR_ON_CUDA_GPU x = Err e -> e = NotOnCudaGpu.
Proof. unfold TENSOR_ON_CUDA_GPU. destruct (is_cuda x); congruence. Qed.

Lemma TENSORS_ON_SAME_DEVICE_Err_inv x y e :
  TENSORS_ON_SAME_DEVICE x y = Err e -> e = DeviceMismatch.
Proof. unfold TENSORS_ON_SAME_DEVICE. case_bool_decide; congruence. Qed.

Lemma fmap_Result_Err {A B} (f : A -> B) (m : Result A) e :
  f <$> m = Err e -> m = Err e.
Proof. destruct m; simpl; congruence. Qed.

Ltac split_pair a :=
  lazymatch type of a with
  | prod _ _ =>
      let x := fresh "x" in
      let y := fresh "y" in
      destruct a as [x y]; split_pair x
  | _ => idtac
  end.

(** Splits a failed sequence of steps into the step that failed. *)
Ltac failed_step H :=
  repeat match type of H with
  | _ ≫= _ = Err _ =>
      let a := fresh "a" in
      apply bind_eq_Err in H as [H|(a & _ & H)]; [|split_pair a]
  | (if ?b then _ else _) = Err _ => destruct b
  end;
  first
    [ apply TORCH_CHECK_Err in H
    | apply TENSOR_ON_CUDA_GPU_Err_inv in H
    | apply TENSORS_ON_SAME_DEVICE_Err_inv in H
    | apply at_index_Err in H
    | apply toInt_Err in H
    | apply toBool_Err in H
    | apply toIntVector_Err in H
    | apply fmap_Result_Err, toInt_Err in H
    | apply Tensor_sort_Err in H
    | apply call_kernel_Err in H
    | idtac ].

(** ** Number of gradient slots *)

Lemma PackSegments_backward_slots kernel ctx grad_output out :
  PackSegments_backward kernel ctx grad_output = Ok out ->
  exists g, out = [g; Undefined; Undefined; Undefined; Undefined].
Proof.
  unfold PackSegments_backward. intros H.
  repeat (apply bind_eq_Ok in H as (? & _ & H)).
  injection H as <-. eauto.
Qed.

Lemma LookupFunctionBatchedUnaryEmbeddingOp_backward_slots
    kernel ctx grad_outputs out :
  LookupFunctionBatchedUnaryEmbeddingOp_backward kernel ctx grad_outputs
  = Ok out ->
  exists g, out = [g; Undefined; Undefined; Undefined].
Proof.
  unfold LookupFunctionBatchedUnaryEmbeddingOp_backward. intros H.
  repeat (apply bind_eq_Ok in H as (? & _ & H)).
  injection H as <-. eauto.
Qed.

Lemma IndexSelectDim0GPUOp_backward_slots
    argsort kernel ctx grad_outputs out :
  IndexSelectDim0GPUOp_backward argsort kernel ctx grad_outputs = Ok out ->
  exists g, out = [g; Undefined; Undefined; Undefined; Undefined].
Proof.
  unfold IndexSelectDim0GPUOp_backward. intros H.
  repeat match type of H with
  | (let '(_, _) := ?p in _) = _ => destruct p
  | _ ≫= _ = Ok _ => apply bind_eq_Ok in H as (? & _ & H)
  end.
  injection H as <-. eauto.
Qed.

(** C1, for [PackSegments]: on the segments of lengths 2, 3 and 1 packed
    with [max_length = 3], [backward] given one gradient returns five
    slots, the gradient of the input followed by four undefined tensors,
    although [forward] has three inputs. *)
Theorem PackSegments_backward_five_slots :
  let t_in := matrix gpu0 1 [[1]; [2]; [3]; [4]; [5]; [6]]%Z in
  let lengths := vector gpu0 [2; 3; 1]%Z in
  let grad := Dense gpu0 [3; 3; 1]%Z [[1; 1; 1]; [1; 1; 1]; [1; 1; 1]]%Z in
  exists ctx out grad_inputs,
    PackSegments_forward pack_segments_forward_cuda empty_context
      t_in lengths 3 = Ok (ctx, out) /\
    PackSegments_backward pack_segments_backward_cuda ctx [grad]
    = Ok grad_inputs /\
    grad_inputs = [matrix gpu0 1 [[1]; [1]; [1]; [1]; [1]; [1]]%Z;
                   Undefined; Undefined; Undefined; Undefined] /\
    length grad_inputs = 5.
Proof.
  intros t_in lengths grad. eexists _, _, _. split; [reflexivity|].
  split; [vm_compute; reflexivity|]. split; reflexivity.
Qed.

(** ** Arity of the gradient list *)

(** C10: [IndexSelectDim0GPUOp::backward] fails on the arity check exactly
    when it is not given exactly one gradient. *)
Theorem IndexSelectDim0GPUOp_backward_arity :
  forall argsort kernel ctx (grad_outputs : variable_list),
    IndexSelectDim0GPUOp_backward argsort kernel ctx grad_outputs
    = Err InvalidArgument
    <-> length grad_outputs <> 1.
Proof.
  intros argsort kernel ctx grad_outputs.
  unfold IndexSelectDim0GPUOp_backward.
  destruct (Nat.eqb_spec (length grad_outputs) 1) as [Hlen|Hlen];
    cbn [TORCH_CHECK mbind Result_bind].
  - split; [|done]. intros H. exfalso.
    failed_step H; discriminate.
  - split; [done | reflexivity].
Qed.

(** C4: [PackSegments::backward] fails on the arity check exactly when the
    gradient list has neither one nor two entries, and a second entry does
    not change the result; [LookupFunctionBatchedUnaryEmbeddingOp::backward],
    on a context holding the four saved tensors, fails on the arity check
    exactly when the list does not have exactly one entry. *)
Theorem backward_arity_checks :
  forall pack_kernel unary_kernel,
    (forall ctx (grad_output : variable_list),
       PackSegments_backward pack_kernel ctx grad_output
       = Err InvalidArgument
       <-> length grad_output <> 1 /\ length grad_output <> 2) /\
    (forall ctx g g',
       PackSegments_backward pack_kernel ctx [g; g']
       = PackSegments_backward pack_kernel ctx [g]) /\
    (forall data weight table_offsets offsets indices
            (grad_outputs : variable_list),
       LookupFunctionBatchedUnaryEmbeddingOp_backward unary_kernel
         (mkContext data [weight; table_offsets; offsets; indices])
         grad_outputs
       = Err InvalidArgument
       <-> length grad_outputs <> 1).
Proof.
  intros pack_kernel unary_kernel. split; [|split].
  - intros ctx grad_output. unfold PackSegments_backward.
    destruct (Nat.eqb_spec (length grad_output) 2) as [H2|H2];
      [|destruct (Nat.eqb_spec (length grad_output) 1) as [H1|H1]];
      cbn [orb TORCH_CHECK mbind Result_bind].
    + split; [|lia]. intros H. exfalso. failed_step H; discriminate.
    + split; [|lia]. intros H. exfalso. failed_step H; discriminate.
    + split; [done | reflexivity].
  - reflexivity.
  - intros data weight table_offsets offsets indices grad_outputs.
    unfold LookupFunctionBatchedUnaryEmbeddingOp_backward.
    cbn [get_saved_variables saved_variables at_index lookup list_lookup
         mbind Result_bind].
    destruct (Nat.eqb_spec (length grad_outputs) 1) as [H1|H1];
      cbn [TORCH_CHECK mbind Result_bind].
    + split; [|done]. intros H. exfalso. failed_step H; discriminate.
    + split; [done | reflexivity].
Qed.

(** ** The scatter kernel on the output of a sort *)

Lemma sum_selected_not_selected idxs grad k c :
  k ∉ idxs -> sum_selected idxs grad k c = 0%Z.
Proof.
  intros Hk. unfold sum_selected, positions_of.
  rewrite <- (Zsum_fmap_filter (fun i => idxs !! i = Some k)).
  apply Zsum_zero. intros i _.
  rewrite decide_False; [reflexivity|].
  intros Hi. apply Hk. eapply list_elem_of_lookup_2, Hi.
Qed.

Lemma index_add_kernel_after_sort argsort gdev gshape grad indices
    sorted orig shape start len :
  Tensor_sort argsort indices = Ok (sorted, orig) ->
  exists R,
    index_add_with_unique_indices_cuda (Dense gdev gshape grad) sorted orig
      shape start len = Some (Dense gdev shape R) /\
    has_shape (Z.to_nat (hd 1%Z shape)) (width shape) R /\
    (is_argsort argsort ->
     (len <= 0)%Z \/ in_consecutive_range (index_values indices) start len ->
     forall r c, r < Z.to_nat (hd 1%Z shape) -> c < width shape ->
       cell R r c = sum_selected (index_values indices) grad (Z.of_nat r) c).
Proof.
  destruct indices as [|idev ishape idx]; simpl; [discriminate|].
  intros [= <- <-]. eexists. split; [reflexivity|].
  destruct (Z.ltb_spec 0 len) as [Hpos|Hneg].
  - split; [apply index_add_consecutive_shape|].
    intros Hs [Hl|Hrange] r c Hr Hc; [lia|].
    by apply index_add_consecutive_cell.
  - split; [apply index_add_general_shape|].
    intros Hs _ r c Hr Hc.
    by apply index_add_general_cell.
Qed.

(** ** IndexSelectDim0GPUOp: forward *)

Lemma IndexSelect_forward_succeeds argsort ctx0 input indices start len skip :
  is_cuda input = true -> is_cuda indices = true ->
  get_device input = get_device indices ->
  is_Ok (IndexSelectDim0GPUOp_forward argsort index_select_cuda ctx0
           input indices start len skip) = true.
Proof.
  intros Hin Hidx Hdev. unfold IndexSelectDim0GPUOp_forward.
  rewrite !TENSOR_ON_CUDA_GPU_Ok, TENSORS_ON_SAME_DEVICE_Ok by assumption.
  destruct input as [|dev shape slices]; [discriminate|].
  destruct indices as [|idev ishape idx]; [discriminate|].
  destruct skip; reflexivity.
Qed.

(** C2: with the gather kernel of the specification, [forward] returns the
    same output whether it sorts the indices or not, and row [i] of that
    output is the row of [input] at [indices[i]]; on CUDA tensors of one
    device it does return. *)
Theorem IndexSelectDim0GPUOp_forward_sort_transparent :
  forall argsort, is_argsort argsort ->
  forall ctx0 input indices start len,
    snd <$> IndexSelectDim0GPUOp_forward argsort index_select_cuda ctx0
              input indices start len false
    = snd <$> IndexSelectDim0GPUOp_forward argsort index_select_cuda ctx0
                input indices start len true /\
    (forall skip ctx out,
       IndexSelectDim0GPUOp_forward argsort index_select_cuda ctx0
         input indices start len skip = Ok (ctx, out) ->
       exists o, out = [o] /\
         length (rows o) = length (index_values indices) /\
         forall (i : nat) (k : Z),
           index_values indices !! i = Some k ->
           (0 <= k < Z.of_nat (length (rows input)))%Z ->
           rows o !! i = rows input !! Z.to_nat k) /\
    (is_cuda input = true -> is_cuda indices = true ->
     get_device input = get_device indices ->
     forall skip,
       is_Ok (IndexSelectDim0GPUOp_forward argsort index_select_cuda ctx0
                input indices start len skip) = true).
Proof.
  intros argsort Hs ctx0 input indices start len.
  assert (Hraw : forall skip ctx out,
    IndexSelectDim0GPUOp_forward argsort index_select_cuda ctx0
      input indices start len skip = Ok (ctx, out) ->
    exists o, out = [o] /\
      index_select_cuda input indices Undefined false = Some o).
  { intros skip ctx out H.
    apply IndexSelect_forward_inv in H
      as (_ & _ & _ & sorted & orig & Hsort & _ & _ & _ & _ & _ & o & -> & Hk).
    exists o. split; [reflexivity|].
    destruct skip; simpl in Hk; [exact Hk|].
    by rewrite <- (index_select_cuda_sorted argsort _ indices sorted orig). }
  split; [|split].
  - unfold IndexSelectDim0GPUOp_forward.
    destruct (TENSOR_ON_CUDA_GPU input); [|reflexivity].
    unfold TENSOR_ON_CUDA_GPU.
    destruct (is_cuda indices) eqn:Hidx; [|reflexivity].
    destruct (TENSORS_ON_SAME_DEVICE input indices); [|reflexivity].
    cbn [mbind Result_bind negb].
    destruct (Tensor_sort argsort indices) as [[sorted orig]|e] eqn:Hsort.
    + cbn [mbind Result_bind].
      rewrite (index_select_cuda_sorted argsort input indices sorted orig)
        by assumption.
      by destruct (index_select_cuda input indices Undefined false).
    + destruct indices; discriminate.
  - intros skip ctx out H.
    destruct (Hraw skip ctx out H) as (o & -> & Hk).
    exists o. split; [reflexivity|]. split.
    + destruct input, indices; simpl in Hk; try discriminate.
      injection Hk as <-. unfold index_values. simpl.
      by rewrite length_fmap.
    + intros i k Hi Hrange. by eapply index_select_cuda_row.
  - intros Hin Hidx Hdev skip. by apply IndexSelect_forward_succeeds.
Qed.

Lemma IndexSelectDim0GPUOp_forward_sort_transparent_witness :
  let input := matrix gpu0 2 [[10; 11]; [20; 21]; [30; 31]; [40; 41]]%Z in
  let indices := vector gpu0 [2; 0; 2]%Z in
  snd <$> IndexSelectDim0GPUOp_forward merge_argsort index_select_cuda
            empty_context input indices 0 0 false
  = Ok [matrix gpu0 2 [[30; 31]; [10; 11]; [30; 31]]%Z] /\
  snd <$> IndexSelectDim0GPUOp_forward merge_argsort index_select_cuda
            empty_context input indices 0 0 false
  = snd <$> IndexSelectDim0GPUOp_forward merge_argsort index_select_cuda
              empty_context input indices 0 0 true.
Proof.
  intros input indices. split; [vm_compute; reflexivity|].
  apply (IndexSelectDim0GPUOp_forward_sort_transparent
           merge_argsort merge_argsort_valid empty_context input indices 0 0).
Defined.

(** ** IndexSelectDim0GPUOp: backward *)

Lemma IndexSelect_backward_one_gradient
    argsort select_kernel add_kernel
    ctx0 input indices start len skip ctx out g :
  IndexSelectDim0GPUOp_forward argsort select_kernel ctx0 input indices
    start len skip = Ok (ctx, out) ->
  is_cuda g = true -> get_device g = get_device indices ->
  exists sorted orig,
    Tensor_sort argsort indices = Ok (sorted, orig) /\
    IndexSelectDim0GPUOp_backward argsort add_kernel ctx [g]
    = (grad_input ← call_kernel
         (add_kernel g sorted orig (sizes input) (to_int start) (to_int len));
       Ok [grad_input; Undefined; Undefined; Undefined; Undefined]).
Proof.
  intros Hfwd Hg Hdev.
  rewrite (IndexSelect_backward_after_forward _ _ _ _ _ _ _ _ _ _ _ _ Hfwd).
  apply IndexSelect_forward_inv in Hfwd
    as (_ & _ & _ & sorted & orig & Hsort & _).
  exists sorted, orig. split; [exact Hsort|].
  cbn [length Nat.eqb TORCH_CHECK at_index lookup list_lookup
       mbind Result_bind].
  rewrite TENSOR_ON_CUDA_GPU_Ok, Hsort by exact Hg.
  cbn [mbind Result_bind].
  by rewrite TENSORS_ON_SAME_DEVICE_Ok.
Qed.

(** C3: with the scatter kernel of the specification, the gradient of the
    input holds, at row [r], the sum of the rows [i] of [grad_output] with
    [indices[i] = r], entry by entry, hence zero at a row no index selects.
    The hints are C ints and either absent (length at most 0) or backed by
    the caller's guarantee. *)
Theorem IndexSelectDim0GPUOp_backward_accumulates :
  forall argsort, is_argsort argsort ->
  forall select_kernel ctx0 input indices start len skip ctx out grad_output,
    IndexSelectDim0GPUOp_forward argsort select_kernel ctx0 input indices
      start len skip = Ok (ctx, out) ->
    is_int start -> is_int len ->
    (len <= 0)%Z \/ in_consecutive_range (index_values indices) start len ->
    is_cuda grad_output = true ->
    get_device grad_output = get_device indices ->
    exists grad_input,
      IndexSelectDim0GPUOp_backward argsort
        index_add_with_unique_indices_cuda ctx [grad_output]
      = Ok [grad_input; Undefined; Undefined; Undefined; Undefined] /\
      forall r c : nat,
        r < Z.to_nat (hd 1%Z (sizes input)) -> c < width (sizes input) ->
        cell (rows grad_input) r c
        = sum_selected (index_values indices) (rows grad_output)
            (Z.of_nat r) c /\
        (Z.of_nat r ∉ index_values indices ->
         cell (rows grad_input) r c = 0%Z).
Proof.
  intros argsort Hs select_kernel ctx0 input indices start len skip ctx out
    grad_output Hfwd Hstart Hlen Hhint Hg Hdev.
  destruct (IndexSelect_backward_one_gradient argsort select_kernel
              index_add_with_unique_indices_cuda _ _ _ _ _ _ _ _ _
              Hfwd Hg Hdev) as (sorted & orig & Hsort & ->).
  rewrite !to_int_id by assumption.
  destruct grad_output as [|gdev gshape grad]; [discriminate|].
  destruct (index_add_kernel_after_sort argsort gdev gshape grad indices
              sorted orig (sizes input) start len Hsort)
    as (R & -> & _ & Hcell).
  eexists. split; [reflexivity|].
  intros r c Hr Hc. simpl.
  assert (Hsum := Hcell Hs Hhint r c Hr Hc).
  split; [exact Hsum|].
  intros Hnot. rewrite Hsum. by apply sum_selected_not_selected.
Qed.

Lemma IndexSelectDim0GPUOp_backward_accumulates_witness :
  let input := matrix gpu0 2 [[10; 11]; [20; 21]; [30; 31]; [40; 41]]%Z in
  let indices := vector gpu0 [2; 0; 2]%Z in
  let grad_output := matrix gpu0 2 [[1; 2]; [10; 20]; [100; 200]]%Z in
  exists ctx out grad_input,
    IndexSelectDim0GPUOp_forward merge_argsort index_select_cuda
      empty_context input indices 0 0 false = Ok (ctx, out) /\
    IndexSelectDim0GPUOp_backward merge_argsort
      index_add_with_unique_indices_cuda ctx [grad_output]
    = Ok [grad_input; Undefined; Undefined; Undefined; Undefined] /\
    cell (rows grad_input) 2 0
    = sum_selected [2; 0; 2]%Z (rows grad_output) 2 0 /\
    sum_selected [2; 0; 2]%Z (rows grad_output) 2 0 = (1 + 100)%Z.
Proof.
  intros input indices grad_output.
  destruct (IndexSelectDim0GPUOp_backward_accumulates
              merge_argsort merge_argsort_valid index_select_cuda
              empty_context input indices 0%Z 0%Z false
              _ _ grad_output eq_refl)
    as (grad_input & Hbwd & Hcell).
  - unfold is_int. lia.
  - unfold is_int. lia.
  - left. lia.
  - reflexivity.
  - reflexivity.
  - eexists _, _, grad_input. split; [reflexivity|].
    split; [exact Hbwd|]. split; [|reflexivity].
    apply (Hcell 2 0); vm_compute; lia.
Defined.

(** *** The sorted pair *)





(** *** The scatter kernel on any list of pairs *)






(** *** The stable sort is a valid sort *)

#[local] Instance key_pos_le_total : Total key_pos_le.
Proof. intros [k i] [k' i']. unfold key_pos_le. simpl. lia. Qed.



(** *** The range hints *)







(** C7: with the scatter kernel of the specification, the first gradient
    [backward] returns has the shape of the input that [forward] saved,
    whatever the indices and the gradient are; and on a CUDA gradient of
    the device of the indices [backward] does return. *)
Theorem IndexSelectDim0GPUOp_backward_shape :
  forall argsort select_kernel ctx0 input indices start len skip ctx out,
    IndexSelectDim0GPUOp_forward argsort select_kernel ctx0 input indices
      start len skip = Ok (ctx, out) ->
    get_saved_data "input_shape" ctx = IVIntList (sizes input) /\
    (forall grad_outputs grad_inputs,
       IndexSelectDim0GPUOp_backward argsort
         index_add_with_unique_indices_cuda ctx grad_outputs
       = Ok grad_inputs ->
       exists grad_input,
         grad_inputs !! 0 = Some grad_input /\
         sizes grad_input = sizes input /\
         has_shape (Z.to_nat (hd 1%Z (sizes input))) (width (sizes input))
           (rows grad_input)) /\
    (forall g, is_cuda g = true -> get_device g = get_device indices ->
       is_Ok (IndexSelectDim0GPUOp_backward argsort
                index_add_with_unique_indices_cuda ctx [g]) = true).
Proof.
  intros argsort select_kernel ctx0 input indices start len skip ctx out Hfwd.
  split; [|split].
  - by apply IndexSelect_forward_inv in Hfwd
      as (_ & _ & _ & sorted & orig & _ & _ & -> & _).
  - intros grad_outputs grad_inputs.
    rewrite (IndexSelect_backward_after_forward _ _ _ _ _ _ _ _ _ _ _ _ Hfwd).
    intros H.
    apply bind_eq_Ok in H as (_ & _ & H).
    apply bind_eq_Ok in H as (g0 & _ & H).
    apply bind_eq_Ok in H as (_ & _ & H).
    apply bind_eq_Ok in H as ([sorted orig] & Hsort & H).
    apply bind_eq_Ok in H as (_ & _ & H).
    apply bind_eq_Ok in H as (grad_input & Hk & H).
    injection H as <-. exists grad_input. split; [reflexivity|].
    destruct g0 as [|gdev gshape grad]; [discriminate|].
    destruct (index_add_kernel_after_sort argsort gdev gshape grad indices
                sorted orig (sizes input) (to_int start) (to_int len) Hsort)
      as (R & HR & Hshape & _).
    rewrite HR in Hk. injection Hk as <-. split; [reflexivity | exact Hshape].
  - intros g Hg Hdev.
    destruct (IndexSelect_backward_one_gradient argsort select_kernel
                index_add_with_unique_indices_cuda _ _ _ _ _ _ _ _ g
                Hfwd Hg Hdev) as (sorted & orig & Hsort & ->).
    destruct g as [|gdev gshape grad]; [discriminate|].
    destruct (index_add_kernel_after_sort argsort gdev gshape grad indices
                sorted orig (sizes input) (to_int start) (to_int len) Hsort)
      as (R & -> & _).
    reflexivity.
Qed.

Lemma IndexSelectDim0GPUOp_backward_shape_witness :
  let input := matrix gpu0 2 [[10; 11]; [20; 21]; [30; 31]; [40; 41]]%Z in
  let indices := vector gpu0 []%Z in
  let grad_output := matrix gpu0 2 [] in
  exists ctx out grad_input,
    IndexSelectDim0GPUOp_forward merge_argsort index_select_cuda
      empty_context input indices 0 0 false = Ok (ctx, out) /\
    IndexSelectDim0GPUOp_backward merge_argsort
      index_add_with_unique_indices_cuda ctx [grad_output]
    = Ok [grad_input; Undefined; Undefined; Undefined; Undefined] /\
    sizes grad_input = [4; 2]%Z /\
    has_shape 4 2 (rows grad_input).
Proof.
  intros input indices grad_output.
  destruct (IndexSelectDim0GPUOp_backward_shape
              merge_argsort index_select_cuda
              empty_context input indices 0%Z 0%Z false _ _ eq_refl)
    as (_ & Hshape & _).
  eexists _, _, _. split; [reflexivity|].
  split; [vm_compute; reflexivity|].
  destruct (Hshape [grad_output] _ eq_refl) as (gi & [= <-] & Hsizes & Hrows).
  split; [exact Hsizes | exact Hrows].
Defined.

(** ** Device checks *)

(** C8, as stated, fails: with the input on the CPU and the indices on a
    GPU the devices differ, yet [forward] stops at the CUDA-residency check
    and not at the same-device check. *)
Lemma IndexSelectDim0GPUOp_forward_cpu_input :
  let input := matrix CPU 2 [[10; 11]; [20; 21]]%Z in
  let indices := vector gpu0 [1; 0]%Z in
  get_device input <> get_device indices /\
  IndexSelectDim0GPUOp_forward merge_argsort index_select_cuda
    empty_context input indices 0 0 false = Err NotOnCudaGpu /\
  IndexSelectDim0GPUOp_forward merge_argsort index_select_cuda
    empty_context input indices 0 0 false <> Err DeviceMismatch.
Proof.
  intros input indices. split; [|split].
  - vm_compute. discriminate.
  - reflexivity.
  - vm_compute. discriminate.
Qed.

(** C8, amended: whatever the kernels are, tensors on different devices
    stop [forward] (input against indices) and [backward] given one
    gradient (gradient against the sorted indices, which sit on the device
    of the indices) before the kernel call: at the same-device check when
    the tensors checked are CUDA tensors, at the CUDA-residency check
    otherwise; tensors on one device never fail the same-device check. *)
Theorem IndexSelectDim0GPUOp_device_checks :
  forall argsort select_kernel add_kernel ctx0 input indices start len skip,
    (get_device input <> get_device indices ->
     IndexSelectDim0GPUOp_forward argsort select_kernel ctx0 input indices
       start len skip
     = Err (if is_cuda input && is_cuda indices
            then DeviceMismatch else NotOnCudaGpu)) /\
    (get_device input = get_device indices ->
     IndexSelectDim0GPUOp_forward argsort select_kernel ctx0 input indices
       start len skip <> Err DeviceMismatch) /\
    (forall ctx out g,
       IndexSelectDim0GPUOp_forward argsort select_kernel ctx0 input indices
         start len skip = Ok (ctx, out) ->
       (exists sorted orig,
          Tensor_sort argsort indices = Ok (sorted, orig) /\
          get_device sorted = get_device indices /\
          (skip = false -> saved_variables ctx = [sorted; orig])) /\
       (get_device g <> get_device indices ->
        IndexSelectDim0GPUOp_backward argsort add_kernel ctx [g]
        = Err (if is_cuda g then DeviceMismatch else NotOnCudaGpu)) /\
       (get_device g = get_device indices ->
        IndexSelectDim0GPUOp_backward argsort add_kernel ctx [g]
        <> Err DeviceMismatch)).
Proof.
  intros argsort select_kernel add_kernel ctx0 input indices start len skip.
  split; [|split].
  - intros Hdev. unfold IndexSelectDim0GPUOp_forward, TENSOR_ON_CUDA_GPU.
    destruct (is_cuda input); [|reflexivity].
    destruct (is_cuda indices); [|reflexivity].
    by rewrite TENSORS_ON_SAME_DEVICE_Err.
  - intros Hdev H. unfold IndexSelectDim0GPUOp_forward in H.
    rewrite (TENSORS_ON_SAME_DEVICE_Ok _ _ Hdev) in H.
    failed_step H; discriminate.
  - intros ctx out g Hfwd.
    pose proof Hfwd as Hinv.
    apply IndexSelect_forward_inv in Hinv
      as (_ & _ & _ & sorted & orig & Hsort & Hsaved & _).
    destruct (Tensor_sort_device _ _ _ _ Hsort) as (_ & _ & Hds & _).
    split; [|split].
    + exists sorted, orig. split; [exact Hsort|]. split; [exact Hds|].
      intros ->. exact Hsaved.
    + intros Hdev.
      rewrite (IndexSelect_backward_after_forward
                 _ _ _ _ _ _ _ _ _ _ _ _ Hfwd).
      cbn [length Nat.eqb TORCH_CHECK at_index lookup list_lookup
           mbind Result_bind].
      unfold TENSOR_ON_CUDA_GPU.
      destruct (is_cuda g); [|reflexivity].
      rewrite Hsort. cbn [mbind Result_bind].
      by rewrite TENSORS_ON_SAME_DEVICE_Err.
    + intros Hdev H.
      rewrite (IndexSelect_backward_after_forward
                 _ _ _ _ _ _ _ _ _ _ _ _ Hfwd) in H.
      cbn [length Nat.eqb TORCH_CHECK at_index lookup list_lookup
           mbind Result_bind] in H.
      rewrite (TENSORS_ON_SAME_DEVICE_Ok _ _ Hdev) in H.
      failed_step H; discriminate.
Qed.

Lemma IndexSelectDim0GPUOp_device_checks_witness :
  let input := matrix gpu0 2 [[10; 11]; [20; 21]]%Z in
  let indices := vector gpu0 [1; 0]%Z in
  let far_indices := vector (CUDA 1) [1; 0]%Z in
  let far_grad := matrix (CUDA 1) 2 [[1; 2]; [3; 4]]%Z in
  get_device input <> get_device far_indices /\
  IndexSelectDim0GPUOp_forward merge_argsort index_select_cuda
    empty_context input far_indices 0 0 false = Err DeviceMismatch /\
  exists ctx out,
    IndexSelectDim0GPUOp_forward merge_argsort index_select_cuda
      empty_context input indices 0 0 false = Ok (ctx, out) /\
    get_device far_grad <> get_device indices /\
    IndexSelectDim0GPUOp_backward merge_argsort
      index_add_with_unique_indices_cuda ctx [far_grad]
    = Err DeviceMismatch.
Proof.
  intros input indices far_indices far_grad.
  assert (Hfar : get_device input <> get_device far_indices)
    by (vm_compute; discriminate).
  assert (Hgrad : get_device far_grad <> get_device indices)
    by (vm_compute; discriminate).
  split; [exact Hfar|]. split.
  - apply (proj1 (IndexSelectDim0GPUOp_device_checks
                    merge_argsort index_select_cuda
                    index_add_with_unique_indices_cuda
                    empty_context input far_indices 0%Z 0%Z false) Hfar).
  - eexists _, _. split; [reflexivity|]. split; [exact Hgrad|].
    destruct (IndexSelectDim0GPUOp_device_checks
                merge_argsort index_select_cuda
                index_add_with_unique_indices_cuda
                empty_context input indices 0%Z 0%Z false)
      as (_ & _ & Hbwd).
    destruct (Hbwd _ _ far_grad eq_refl) as (_ & Hdiff & _).
    exact (Hdiff Hgrad).
Defined.

(** ** The public wrapper *)

(** C9: an absent range start or length stands for 0 and an absent flag
    for [false]; the context records the flag the wrapper passes on, the
    caller's flag and-ed with inference mode being off; with inference mode
    on, the result is that of the call with the flag [false], and the
    sorted indices and their permutation are what is saved. *)
Theorem index_select_dim0_gpu_defaults :
  forall argsort select_kernel inference_mode input indices
         (start len : option Z) (skip : option bool),
    index_select_dim0_gpu argsort select_kernel inference_mode input indices
      start len skip
    = index_select_dim0_gpu argsort select_kernel inference_mode
        input indices
        (Some (default 0%Z start)) (Some (default 0%Z len))
        (Some (default false skip)) /\
    (forall ctx r,
       index_select_dim0_gpu argsort select_kernel inference_mode
         input indices start len skip = Ok (ctx, r) ->
       get_saved_data "consecutive_range_start" ctx
       = IVInt (to_int (default 0%Z start)) /\
       get_saved_data "consecutive_range_length" ctx
       = IVInt (to_int (default 0%Z len)) /\
       get_saved_data "skip_indices_sorting_fwd" ctx
       = IVBool (default false skip && negb inference_mode)) /\
    index_select_dim0_gpu argsort select_kernel true input indices
      start len skip
    = index_select_dim0_gpu argsort select_kernel true input indices
        start len (Some false) /\
    (forall ctx r,
       index_select_dim0_gpu argsort select_kernel true input indices
         start len skip = Ok (ctx, r) ->
       exists sorted orig,
         Tensor_sort argsort indices = Ok (sorted, orig) /\
         saved_variables ctx = [sorted; orig]).
Proof.
  intros argsort select_kernel inference_mode input indices start len skip.
  assert (Hrun : forall im ctx r,
    index_select_dim0_gpu argsort select_kernel im input indices
      start len skip = Ok (ctx, r) ->
    exists out,
      IndexSelectDim0GPUOp_forward argsort select_kernel empty_context
        input indices (to_int (default 0%Z start))
        (to_int (default 0%Z len)) (default false skip && negb im)
      = Ok (ctx, out)).
  { intros im ctx r H. unfold index_select_dim0_gpu in H.
    apply bind_eq_Ok in H as ([ctx' out] & Hfwd & H).
    apply bind_eq_Ok in H as (r' & _ & [= <- <-]).
    exists out. destruct start, len, skip; exact Hfwd. }
  split; [|split; [|split]].
  - by destruct start, len, skip.
  - intros ctx r H. destruct (Hrun _ _ _ H) as (out & Hfwd).
    by apply IndexSelect_forward_inv in Hfwd
      as (_ & _ & _ & sorted & orig & _ & _ & _ & -> & -> & -> & _).
  - unfold index_select_dim0_gpu. by rewrite !andb_false_r.
  - intros ctx r H. destruct (Hrun _ _ _ H) as (out & Hfwd).
    rewrite andb_false_r in Hfwd.
    apply IndexSelect_forward_inv in Hfwd
      as (_ & _ & _ & sorted & orig & Hsort & Hsaved & _).
    by exists sorted, orig.
Qed.

Lemma index_select_dim0_gpu_defaults_witness :
  let input := matrix gpu0 2 [[10; 11]; [20; 21]; [30; 31]; [40; 41]]%Z in
  let indices := vector gpu0 [2; 0; 2]%Z in
  exists ctx r,
    index_select_dim0_gpu merge_argsort index_select_cuda true
      input indices None None (Some true) = Ok (ctx, r) /\
    r = matrix gpu0 2 [[30; 31]; [10; 11]; [30; 31]]%Z /\
    get_saved_data "consecutive_range_start" ctx = IVInt 0 /\
    get_saved_data "consecutive_range_length" ctx = IVInt 0 /\
    get_saved_data "skip_indices_sorting_fwd" ctx = IVBool false /\
    length (saved_variables ctx) = 2.
Proof.
  intros input indices.
  destruct (index_select_dim0_gpu_defaults merge_argsort index_select_cuda
              true input indices None None (Some true))
    as (_ & Hrec & _ & Hsaved).
  eexists _, _. split; [reflexivity|]. split; [reflexivity|].
  destruct (Hrec _ _ eq_refl) as (Hs & Hl & Hf).
  destruct (Hsaved _ _ eq_refl) as (sorted & orig & _ & Hv).
  split; [exact Hs|]. split; [exact Hl|]. split; [exact Hf|].
  by rewrite Hv.
Defined.

(** * Further properties of the operator layer *)

(** ** PackSegments *)

(** What [pack_segments_cuda] returns is the tensor the pack kernel
    produced, and on the context it leaves, [backward] given one or two
    gradients never misses a saved value: it hands the unpack kernel the
    first gradient, the saved lengths, the leading dimension of the input
    and [max_length], and returns that kernel's result in the first of five
    slots. *)
Theorem pack_segments_cuda_then_backward :
  forall fwd_kernel bwd_kernel t_in lengths max_length ctx r,
    pack_segments_cuda fwd_kernel t_in lengths max_length = Ok (ctx, r) ->
    fwd_kernel t_in lengths max_length = Some r /\
    forall g rest, length rest <= 1 ->
      PackSegments_backward bwd_kernel ctx (g :: rest)
      = (grad_input ← call_kernel
           (bwd_kernel g lengths (hd 0%Z (sizes t_in)) max_length);
         Ok [grad_input; Undefined; Undefined; Undefined; Undefined]).
Proof.
  intros fwd_kernel bwd_kernel t_in lengths max_length ctx r H.
  unfold pack_segments_cuda, PackSegments_forward, size0 in H.
  destruct (sizes t_in) as [|d rest'] eqn:Hsizes; simpl in H;
    [discriminate|].
  destruct (fwd_kernel t_in lengths max_length) as [o|] eqn:Hk;
    simpl in H; [|discriminate].
  injection H as <- <-. split; [reflexivity|].
  intros g rest Hrest. unfold PackSegments_backward.
  assert (Hlen : (length (g :: rest) =? 2) || (length (g :: rest) =? 1)
                 = true).
  { destruct rest as [|g' [|g'' rest]]; simpl in *; [done | done | lia]. }
  rewrite Hlen. cbn [TORCH_CHECK mbind Result_bind at_index lookup
                     list_lookup].
  saved_data_simpl. reflexivity.
Qed.

Lemma pack_segments_cuda_then_backward_witness :
  let t_in := matrix gpu0 1 [[1]; [2]; [3]; [4]; [5]; [6]]%Z in
  let lengths := vector gpu0 [2; 3; 1]%Z in
  let grad := Dense gpu0 [3; 2; 1]%Z [[1; 1]; [1; 1]; [1; 1]]%Z in
  exists ctx,
    pack_segments_cuda pack_segments_forward_cuda t_in lengths 2
    = Ok (ctx, Dense gpu0 [3; 2; 1]%Z [[1; 2]; [3; 4]; [6; 0]]%Z) /\
    PackSegments_backward pack_segments_backward_cuda ctx [grad]
    = Ok [matrix gpu0 1 [[1]; [1]; [1]; [1]; [0]; [1]]%Z;
          Undefined; Undefined; Undefined; Undefined].
Proof.
  intros t_in lengths grad. eexists. split; [reflexivity|].
  destruct (pack_segments_cuda_then_backward
              pack_segments_forward_cuda pack_segments_backward_cuda
              t_in lengths 2%Z _ _ eq_refl) as [_ Hbwd].
  rewrite (Hbwd grad []) by (simpl; lia).
  vm_compute. reflexivity.
Defined.

(** On a context that lacks [max_length] or [total_length],
    [PackSegments::backward] given one or two gradients stops with the
    internal error, whatever the unpack kernel is. *)
Theorem PackSegments_backward_missing_state :
  forall bwd_kernel ctx (grad_output : variable_list),
    length grad_output = 1 \/ length grad_output = 2 ->
    saved_data ctx !! "max_length" = None \/
    saved_data ctx !! "total_length" = None ->
    PackSegments_backward bwd_kernel ctx grad_output = Err InternalError.
Proof.
  intros bwd_kernel ctx grad_output Hlen Hmiss.
  unfold PackSegments_backward.
  assert (Hchk : (length grad_output =? 2) || (length grad_output =? 1)
                 = true).
  { destruct Hlen as [-> | ->]; reflexivity. }
  rewrite Hchk. cbn [TORCH_CHECK mbind Result_bind].
  destruct grad_output as [|g rest]; [simpl in Hlen; lia|].
  cbn [at_index lookup list_lookup mbind Result_bind].
  unfold get_saved_data, get_saved_variables.
  destruct (saved_data ctx !! "max_length") as [[]|] eqn:Hm;
    try reflexivity.
  destruct (saved_data ctx !! "total_length") as [[]|] eqn:Ht;
    try reflexivity.
  destruct Hmiss; discriminate.
Qed.

Lemma PackSegments_backward_missing_state_witness :
  PackSegments_backward pack_segments_backward_cuda empty_context
    [Dense gpu0 [1; 1; 1]%Z [[1]]%Z] = Err InternalError.
Proof.
  apply PackSegments_backward_missing_state.
  - left. reflexivity.
  - left. reflexivity.
Defined.

(** Neither [PackSegments::backward] nor
    [LookupFunctionBatchedUnaryEmbeddingOp::backward] checks a device: they
    never end in the CUDA-residency or the device-mismatch failure. *)
Theorem backward_without_device_checks :
  forall pack_kernel unary_kernel ctx (grads : variable_list) e,
    (PackSegments_backward pack_kernel ctx grads = Err e ->
     e <> NotOnCudaGpu /\ e <> DeviceMismatch) /\
    (LookupFunctionBatchedUnaryEmbeddingOp_backward unary_kernel ctx grads
     = Err e ->
     e <> NotOnCudaGpu /\ e <> DeviceMismatch).
Proof.
  intros pack_kernel unary_kernel ctx grads e. split; intros H.
  - unfold PackSegments_backward in H.
    failed_step H; subst; (split; discriminate) || discriminate.
  - unfold LookupFunctionBatchedUnaryEmbeddingOp_backward in H.
    failed_step H; subst; (split; discriminate) || discriminate.
Qed.

Lemma backward_without_device_checks_witness :
  let cpu_grad := matrix CPU 1 [[1]; [1]]%Z in
  let cpu_lengths := vector CPU [2]%Z in
  let ctx := mkContext ∅ [cpu_lengths] in
  PackSegments_backward pack_segments_backward_cuda ctx [cpu_grad]
  = Err InternalError /\
  InternalError <> NotOnCudaGpu /\ InternalError <> DeviceMismatch.
Proof.
  intros cpu_grad cpu_lengths ctx. split; [reflexivity|].
  apply (proj1 (backward_without_device_checks
                  pack_segments_backward_cuda
                  (fun _ _ _ _ _ => None) ctx [cpu_grad]
                  InternalError)).
  reflexivity.
Defined.

(** ** LookupFunctionBatchedUnaryEmbeddingOp *)

(** [lookup_batched_unary_embedding_function] returns exactly when the
    embedding kernel does, with that kernel's tensor; on the context it
    leaves, [backward] given one gradient finds the four saved tensors in
    the order [forward] received them and passes them, after the gradient,
    to the backward kernel. *)
Theorem lookup_batched_unary_embedding_then_backward :
  forall fwd_kernel bwd_kernel weight table_offsets offsets indices,
    (is_Ok (lookup_batched_unary_embedding_function fwd_kernel
              weight table_offsets offsets indices) = true
     <-> is_Some (fwd_kernel weight table_offsets offsets indices)) /\
    (forall ctx r,
       lookup_batched_unary_embedding_function fwd_kernel
         weight table_offsets offsets indices = Ok (ctx, r) ->
       fwd_kernel weight table_offsets offsets indices = Some r /\
       forall g,
         LookupFunctionBatchedUnaryEmbeddingOp_backward bwd_kernel ctx [g]
         = (grad_weight ← call_kernel
              (bwd_kernel g weight table_offsets offsets indices);
            Ok [grad_weight; Undefined; Undefined; Undefined])).
Proof.
  intros fwd_kernel bwd_kernel weight table_offsets offsets indices.
  unfold lookup_batched_unary_embedding_function,
    LookupFunctionBatchedUnaryEmbeddingOp_forward.
  destruct (fwd_kernel weight table_offsets offsets indices) as [o|];
    simpl.
  - split; [split; [eauto | reflexivity]|].
    intros ctx r [= <- <-]. split; reflexivity.
  - split; [split; [discriminate | intros [? ?]; discriminate]|].
    discriminate.
Qed.

Lemma lookup_batched_unary_embedding_then_backward_witness :
  let weight := matrix gpu0 3 [[5; 6; 7]]%Z in
  let ids := vector gpu0 [0; 1]%Z in
  let fwd := fun w _ _ _ : Tensor => Some w in
  let bwd := fun g w _ _ _ : Tensor => Some g in
  exists ctx,
    lookup_batched_unary_embedding_function fwd weight ids ids ids
    = Ok (ctx, weight) /\
    LookupFunctionBatchedUnaryEmbeddingOp_backward bwd ctx [weight]
    = Ok [weight; Undefined; Undefined; Undefined].
Proof.
  intros weight ids fwd bwd. eexists. split; [reflexivity|].
  destruct (lookup_batched_unary_embedding_then_backward
              fwd bwd weight ids ids ids) as [_ H].
  destruct (H _ _ eq_refl) as [_ Hbwd].
  rewrite Hbwd. reflexivity.
Defined.

(** ** IndexSelectDim0GPUOp *)

(** [IndexSelectDim0GPUOp::forward] returns exactly when both tensors are
    CUDA tensors of one device and the gather kernel returns on the
    arguments it is given: the raw indices with an undefined permutation
    when the sort is skipped, the sorted indices with their permutation
    otherwise.  The sort itself cannot fail once the checks have passed. *)
Theorem IndexSelectDim0GPUOp_forward_returns_iff :
  forall argsort select_kernel ctx0 input indices start len skip,
    is_Ok (IndexSelectDim0GPUOp_forward argsort select_kernel ctx0
             input indices start len skip) = true
    <-> is_cuda input = true /\ is_cuda indices = true /\
        get_device input = get_device indices /\
        exists sorted orig,
          Tensor_sort argsort indices = Ok (sorted, orig) /\
          is_Some (select_kernel input
                     (if skip then indices else sorted)
                     (if skip then Undefined else orig) (negb skip)).
Proof.
  intros argsort select_kernel ctx0 input indices start len skip. split.
  - destruct (IndexSelectDim0GPUOp_forward _ _ _ _ _ _ _ _)
      as [[ctx out]|e] eqn:Hfwd; [|discriminate].
    intros _. apply IndexSelect_forward_inv in Hfwd
      as (Hin & Hidx & Hdev & sorted & orig & Hsort & _ & _ & _ & _ & _
          & o & _ & Hk).
    do 3 (split; [assumption|]). exists sorted, orig. split; [done|].
    by exists o.
  - intros (Hin & Hidx & Hdev & sorted & orig & Hsort & o & Hk).
    unfold IndexSelectDim0GPUOp_forward.
    rewrite !TENSOR_ON_CUDA_GPU_Ok, TENSORS_ON_SAME_DEVICE_Ok by assumption.
    cbn [mbind Result_bind]. rewrite Hsort.
    destruct skip; cbn [mbind Result_bind negb] in *; by rewrite Hk.
Qed.

Lemma IndexSelectDim0GPUOp_forward_returns_iff_witness :
  let input := matrix gpu0 2 [[10; 11]; [20; 21]]%Z in
  let indices := vector gpu0 [1; 0; 1]%Z in
  is_Ok (IndexSelectDim0GPUOp_forward merge_argsort index_select_cuda
           empty_context input indices 0 0 false) = true /\
  is_cuda input = true /\ is_cuda indices = true.
Proof.
  intros input indices. split; [reflexivity|].
  destruct (proj1 (IndexSelectDim0GPUOp_forward_returns_iff
                     merge_argsort index_select_cuda empty_context
                     input indices 0%Z 0%Z false) eq_refl)
    as (Hin & Hidx & _).
  split; assumption.
Defined.

(** [IndexSelectDim0GPUOp::forward] only fails at its residency checks, at
    its same-device check, or inside the gather kernel; a failure raised
    by the kernel means that all three checks had passed. *)
Theorem IndexSelectDim0GPUOp_forward_failures :
  forall argsort select_kernel ctx0 input indices start len skip e,
    IndexSelectDim0GPUOp_forward argsort select_kernel ctx0 input indices
      start len skip = Err e ->
    e = NotOnCudaGpu \/ e = DeviceMismatch \/
    (e = ExternalError /\ is_cuda input = true /\ is_cuda indices = true /\
     get_device input = get_device indices).
Proof.
  intros argsort select_kernel ctx0 input indices start len skip e.
  unfold IndexSelectDim0GPUOp_forward, TENSOR_ON_CUDA_GPU,
    TENSORS_ON_SAME_DEVICE.
  destruct (is_cuda input); [|intros [= <-]; auto].
  destruct (is_cuda indices); [|intros [= <-]; auto].
  case_bool_decide as Hdev; [|intros [= <-]; auto].
  cbn [mbind Result_bind]. intros H.
  right. right. split; [|done].
  failed_step H; subst; congruence.
Qed.

Lemma IndexSelectDim0GPUOp_forward_failures_witness :
  let input := matrix gpu0 2 [[10; 11]; [20; 21]]%Z in
  let indices := vector gpu0 [1; 0]%Z in
  let raising := fun (_ _ _ : Tensor) (_ : bool) => @None Tensor in
  IndexSelectDim0GPUOp_forward merge_argsort raising empty_context
    input indices 0 0 false = Err ExternalError /\
  is_cuda input = true /\ get_device input = get_device indices.
Proof.
  intros input indices raising. split; [reflexivity|].
  destruct (IndexSelectDim0GPUOp_forward_failures
              merge_argsort raising empty_context input indices
              0%Z 0%Z false ExternalError eq_refl)
    as [H|[H|(_ & Hin & _ & Hdev)]]; [discriminate.. |].
  split; assumption.
Defined.

(** [IndexSelectDim0GPUOp::backward] looks at its gradient before it reads
    the context: a single gradient that is undefined or off the GPU ends in
    the CUDA-residency failure for every context, even an empty one. *)
Theorem IndexSelectDim0GPUOp_backward_gradient_off_gpu :
  forall argsort add_kernel ctx g,
    is_cuda g = false ->
    IndexSelectDim0GPUOp_backward argsort add_kernel ctx [g]
    = Err NotOnCudaGpu.
Proof.
  intros argsort add_kernel ctx g Hg.
  unfold IndexSelectDim0GPUOp_backward.
  cbn [length Nat.eqb TORCH_CHECK at_index lookup list_lookup
       mbind Result_bind].
  by rewrite TENSOR_ON_CUDA_GPU_Err.
Qed.

Lemma IndexSelectDim0GPUOp_backward_gradient_off_gpu_witness :
  IndexSelectDim0GPUOp_backward merge_argsort
    index_add_with_unique_indices_cuda empty_context [Undefined]
  = Err NotOnCudaGpu.
Proof.
  apply IndexSelectDim0GPUOp_backward_gradient_off_gpu. reflexivity.
Defined.

(** On a context without the [skip_indices_sorting_fwd] flag,
    [IndexSelectDim0GPUOp::backward] given one CUDA gradient stops with the
    internal error, whatever else the context holds. *)
Theorem IndexSelectDim0GPUOp_backward_missing_flag :
  forall argsort add_kernel ctx g,
    is_cuda g = true ->
    saved_data ctx !! "skip_indices_sorting_fwd" = None ->
    IndexSelectDim0GPUOp_backward argsort add_kernel ctx [g]
    = Err InternalError.
Proof.
  intros argsort add_kernel ctx g Hg Hflag.
  unfold IndexSelectDim0GPUOp_backward.
  cbn [length Nat.eqb TORCH_CHECK at_index lookup list_lookup
       mbind Result_bind].
  rewrite TENSOR_ON_CUDA_GPU_Ok by exact Hg.
  unfold get_saved_data. rewrite Hflag. reflexivity.
Qed.

Lemma IndexSelectDim0GPUOp_backward_missing_flag_witness :
  IndexSelectDim0GPUOp_backward merge_argsort
    index_add_with_unique_indices_cuda empty_context
    [matrix gpu0 1 [[1]]%Z]
  = Err InternalError.
Proof.
  apply IndexSelectDim0GPUOp_backward_missing_flag; reflexivity.
Defined.

(** On a context left by [forward], [backward] never misses a saved value:
    whatever the gradients, it does not end in the internal error. *)
Theorem IndexSelectDim0GPUOp_backward_finds_saved_state :
  forall argsort select_kernel add_kernel ctx0 input indices start len skip
         ctx out grad_outputs,
    IndexSelectDim0GPUOp_forward argsort select_kernel ctx0 input indices
      start len skip = Ok (ctx, out) ->
    IndexSelectDim0GPUOp_backward argsort add_kernel ctx grad_outputs
    <> Err InternalError.
Proof.
  intros argsort select_kernel add_kernel ctx0 input indices start len skip
    ctx out grad_outputs Hfwd H.
  rewrite (IndexSelect_backward_after_forward _ _ _ _ _ _ _ _ _ _ _ _ Hfwd)
    in H.
  destruct (Nat.eqb_spec (length grad_outputs) 1) as [Hlen|Hlen];
    cbn [TORCH_CHECK mbind Result_bind] in H; [|discriminate].
  destruct grad_outputs as [|g rest]; [discriminate|].
  cbn [at_index lookup list_lookup mbind Result_bind] in H.
  failed_step H; discriminate.
Qed.

Lemma IndexSelectDim0GPUOp_backward_finds_saved_state_witness :
  let input := matrix gpu0 2 [[10; 11]; [20; 21]]%Z in
  let indices := vector gpu0 [1; 0; 1]%Z in
  exists ctx out,
    IndexSelectDim0GPUOp_forward merge_argsort index_select_cuda
      empty_context input indices 0 0 true = Ok (ctx, out) /\
    IndexSelectDim0GPUOp_backward merge_argsort
      index_add_with_unique_indices_cuda ctx [] <> Err InternalError.
Proof.
  intros input indices. eexists _, _. split; [reflexivity|].
  eapply (IndexSelectDim0GPUOp_backward_finds_saved_state
            merge_argsort index_select_cuda
            index_add_with_unique_indices_cuda
            empty_context input indices 0%Z 0%Z true).
  reflexivity.
Defined.

(** [forward] keeps nothing of the input but its shape: two forward calls
    that differ only in the entries of the input leave contexts on which
    [backward] behaves alike. *)
Theorem IndexSelectDim0GPUOp_backward_reads_shape_only :
  forall argsort select_kernel add_kernel ctx0 input input' indices
         start len skip ctx out ctx' out' grad_outputs,
    IndexSelectDim0GPUOp_forward argsort select_kernel ctx0 input indices
      start len skip = Ok (ctx, out) ->
    IndexSelectDim0GPUOp_forward argsort select_kernel ctx0 input' indices
      start len skip = Ok (ctx', out') ->
    sizes input = sizes input' ->
    IndexSelectDim0GPUOp_backward argsort add_kernel ctx grad_outputs
    = IndexSelectDim0GPUOp_backward argsort add_kernel ctx' grad_outputs.
Proof.
  intros argsort select_kernel add_kernel ctx0 input input' indices
    start len skip ctx out ctx' out' grad_outputs Hfwd Hfwd' Hsizes.
  rewrite (IndexSelect_backward_after_forward _ _ _ _ _ _ _ _ _ _ _ _ Hfwd).
  rewrite (IndexSelect_backward_after_forward
             _ _ _ _ _ _ _ _ _ _ _ _ Hfwd').
  by rewrite Hsizes.
Qed.

Lemma IndexSelectDim0GPUOp_backward_reads_shape_only_witness :
  let input := matrix gpu0 2 [[10; 11]; [20; 21]]%Z in
  let input' := matrix gpu0 2 [[-1; 0]; [7; 7]]%Z in
  let indices := vector gpu0 [1; 0; 1]%Z in
  let grad := matrix gpu0 2 [[1; 2]; [3; 4]; [5; 6]]%Z in
  exists ctx out ctx' out',
    IndexSelectDim0GPUOp_forward merge_argsort index_select_cuda
      empty_context input indices 0 0 false = Ok (ctx, out) /\
    IndexSelectDim0GPUOp_forward merge_argsort index_select_cuda
      empty_context input' indices 0 0 false = Ok (ctx', out') /\
    out <> out' /\
    IndexSelectDim0GPUOp_backward merge_argsort
      index_add_with_unique_indices_cuda ctx [grad]
    = IndexSelectDim0GPUOp_backward merge_argsort
        index_add_with_unique_indices_cuda ctx' [grad].
Proof.
  intros input input' indices grad.
  eexists _, _, _, _. split; [reflexivity|]. split; [reflexivity|].
  split; [vm_compute; discriminate|].
  eapply (IndexSelectDim0GPUOp_backward_reads_shape_only
            merge_argsort index_select_cuda
            index_add_with_unique_indices_cuda
            empty_context input input' indices 0%Z 0%Z false);
    reflexivity.
Defined.

(** The indices are sorted on one side only.  A [forward] that skips the
    sort does not depend on the sort at all, and on the context of a
    [forward] that did sort, [backward] uses the saved pair and does not
    depend on the sort either. *)
Theorem IndexSelectDim0GPUOp_sorts_once :
  forall argsort argsort' select_kernel add_kernel ctx0 input indices
         start len,
    IndexSelectDim0GPUOp_forward argsort select_kernel ctx0 input indices
      start len true
    = IndexSelectDim0GPUOp_forward argsort' select_kernel ctx0 input indices
        start len true /\
    (forall ctx out grad_outputs,
       IndexSelectDim0GPUOp_forward argsort select_kernel ctx0 input indices
         start len false = Ok (ctx, out) ->
       IndexSelectDim0GPUOp_backward argsort' add_kernel ctx grad_outputs
       = IndexSelectDim0GPUOp_backward argsort add_kernel ctx grad_outputs).
Proof.
  intros argsort argsort' select_kernel add_kernel ctx0 input indices
    start len. split; [reflexivity|].
  intros ctx out grad_outputs Hfwd.
  apply IndexSelect_forward_inv in Hfwd
    as (_ & _ & _ & sorted & orig & _ & Hsaved & _ & _ & _ & Hskip & _).
  unfold IndexSelectDim0GPUOp_backward, get_saved_variables.
  rewrite Hskip, Hsaved. reflexivity.
Qed.

Lemma IndexSelectDim0GPUOp_sorts_once_witness :
  let input := matrix gpu0 2 [[10; 11]; [20; 21]]%Z in
  let indices := vector gpu0 [1; 0; 1]%Z in
  let grad := matrix gpu0 2 [[1; 2]; [3; 4]; [5; 6]]%Z in
  let unsorted := fun l : list Z => seq 0 (length l) in
  exists ctx out,
    IndexSelectDim0GPUOp_forward merge_argsort index_select_cuda
      empty_context input indices 0 0 false = Ok (ctx, out) /\
    IndexSelectDim0GPUOp_backward unsorted
      index_add_with_unique_indices_cuda ctx [grad]
    = IndexSelectDim0GPUOp_backward merge_argsort
        index_add_with_unique_indices_cuda ctx [grad].
Proof.
  intros input indices grad unsorted.
  eexists _, _. split; [reflexivity|].
  destruct (IndexSelectDim0GPUOp_sorts_once
              merge_argsort unsorted index_select_cuda
              index_add_with_unique_indices_cuda
              empty_context input indices 0%Z 0%Z) as [_ H].
  eapply H. reflexivity.
Defined.

(** ** The public wrapper and the registration table *)

(** The hints given to [index_select_dim0_gpu] are 64-bit values that
    reach the operator as C ints.  On the context the wrapper leaves,
    [backward] given one CUDA gradient of the device of the indices passes
    the scatter kernel the sorted indices, the shape of the input and the
    hints reduced to 32 bits, which are the caller's own values whenever
    these fit an int. *)
Theorem index_select_dim0_gpu_then_backward :
  forall argsort select_kernel add_kernel inference_mode input indices
         (start len : option Z) (skip : option bool) ctx r g,
    index_select_dim0_gpu argsort select_kernel inference_mode
      input indices start len skip = Ok (ctx, r) ->
    is_cuda g = true -> get_device g = get_device indices ->
    exists sorted orig (s l : Z),
      Tensor_sort argsort indices = Ok (sorted, orig) /\
      IndexSelectDim0GPUOp_backward argsort add_kernel ctx [g]
      = (grad_input ← call_kernel
           (add_kernel g sorted orig (sizes input) s l);
         Ok [grad_input; Undefined; Undefined; Undefined; Undefined]) /\
      is_int s /\ is_int l /\
      ((s - default 0 start) mod 2 ^ 32 = 0)%Z /\
      ((l - default 0 len) mod 2 ^ 32 = 0)%Z /\
      (is_int (default 0%Z start) -> s = default 0%Z start) /\
      (is_int (default 0%Z len) -> l = default 0%Z len).
Proof.
  intros argsort select_kernel add_kernel inference_mode input indices
    start len skip ctx r g H Hg Hdev.
  unfold index_select_dim0_gpu, IndexSelectDim0GPUOp_apply in H.
  apply bind_eq_Ok in H as ([ctx' out] & Hfwd & H).
  apply bind_eq_Ok in H as (r' & _ & [= <- <-]).
  destruct (IndexSelect_backward_one_gradient argsort select_kernel
              add_kernel _ _ _ _ _ _ _ _ g Hfwd Hg Hdev)
    as (sorted & orig & Hsort & Hbwd).
  exists sorted, orig, (to_int (default 0%Z start)),
    (to_int (default 0%Z len)).
  split; [exact Hsort|]. split.
  - rewrite Hbwd.
    rewrite !(to_int_id (to_int _)) by apply to_int_is_int.
    by destruct start, len.
  - split; [apply to_int_is_int|]. split; [apply to_int_is_int|].
    assert (Hmod : forall z, ((to_int z - z) mod 2 ^ 32 = 0)%Z).
    { intros z. unfold to_int.
      rewrite (Z.mod_eq (z + 2 ^ 31) (2 ^ 32)) by lia.
      replace (z + 2 ^ 31 - 2 ^ 32 * ((z + 2 ^ 31) / 2 ^ 32) - 2 ^ 31 - z)%Z
        with (- ((z + 2 ^ 31) / 2 ^ 32) * 2 ^ 32)%Z by lia.
      apply Z.mod_mul. lia. }
    split; [apply Hmod|]. split; [apply Hmod|].
    split; apply to_int_id.
Qed.

Lemma index_select_dim0_gpu_then_backward_witness :
  let input := matrix gpu0 2 [[10; 11]; [20; 21]; [30; 31]]%Z in
  let indices := vector gpu0 [2; 1; 2]%Z in
  let grad := matrix gpu0 2 [[1; 2]; [10; 20]; [100; 200]]%Z in
  exists ctx r,
    index_select_dim0_gpu merge_argsort index_select_cuda false
      input indices (Some (2 ^ 32 + 1)%Z) (Some 2%Z) (Some true)
    = Ok (ctx, r) /\
    get_saved_data "consecutive_range_start" ctx = IVInt 1 /\
    exists sorted orig s l,
      IndexSelectDim0GPUOp_backward merge_argsort
        index_add_with_unique_indices_cuda ctx [grad]
      = (grad_input ← call_kernel
           (index_add_with_unique_indices_cuda grad sorted orig
              (sizes input) s l);
         Ok [grad_input; Undefined; Undefined; Undefined; Undefined]) /\
      is_int s /\ l = 2%Z.
Proof.
  intros input indices grad. eexists _, _. split; [reflexivity|].
  split; [reflexivity|].
  destruct (index_select_dim0_gpu_then_backward
              merge_argsort index_select_cuda
              index_add_with_unique_indices_cuda false input indices
              (Some (2 ^ 32 + 1)%Z) (Some 2%Z) (Some true) _ _ grad
              eq_refl eq_refl eq_refl)
    as (sorted & orig & s & l & _ & Hbwd & Hs & _ & _ & _ & _ & Hl).
  exists sorted, orig, s, l. split; [exact Hbwd|]. split; [exact Hs|].
  apply Hl. unfold is_int. simpl. lia.
Defined.

(** No operator name is registered twice, so no registration replaces an
    earlier one: the table has one entry per registration and every
    registered name resolves to the function it was registered with. *)
Theorem cuda_dispatch_table_keeps_every_registration :
  NoDup (fst <$> cuda_registrations) /\
  size cuda_dispatch_table = length cuda_registrations /\
  forall name function,
    (name, function) ∈ cuda_registrations ->
    cuda_dispatch_table !! name = Some function.
Proof.
  split; [|split].
  - compute_done.
  - vm_compute. reflexivity.
  - intros name function Hin.
    assert (H : Forall (fun r => cuda_dispatch_table !! r.1 = Some r.2)
                  cuda_registrations).
    { compute_done. }
    apply (proj1 (Forall_forall _ _) H (name, function) Hin).
Qed.

Lemma cuda_dispatch_table_keeps_every_registration_witness :
  cuda_dispatch_table !! "index_select_dim0" = Some "index_select_dim0_gpu".
Proof.
  apply (proj2 (proj2 cuda_dispatch_table_keeps_every_registration)).
  compute_done.
Defined.
